(** * TRACE shop agent: forecasting engine and recommendation chain

    A shallow embedding of the shop-agent API server (holtForecast,
    forecastDemand, the /api/dashboard/forecast reorder projection, the
    /api/recommend chain with mergeSearchResults, recommendFromWebShop and
    buildUnfoundItems) and of the payment ledger computed by the frontend
    (App.jsx), together with the properties the design document states
    about them.

    Numbers.  A JavaScript number is modelled as an exact rational [Q];
    the values produced by [Math.floor], [Math.ceil] and [Math.round] are
    integers and are kept in [Z].  The non-finite values that [parseFloat]
    can return are kept apart in [jsnum].  Binary64 rounding is not
    modelled; the concrete runs below that refute a statement use small
    integers and halves, on which binary64 gives the same values.

    Strings.  A JavaScript string is modelled as a [string] of ASCII
    characters. *)

From Stdlib Require Import QArith Qround ZArith Lia Lqa Bool Ascii String List.
Import ListNotations.

Set Implicit Arguments.

Open Scope Z_scope.
Open Scope Q_scope.

(* ================================================================== *)
(** ** JavaScript numbers *)

(** The result of [parseFloat]: not-a-number, an infinity, or a finite value. *)
Inductive jsnum : Type :=
| JNaN : jsnum
| JInf (negative : bool) : jsnum
| JFin (q : Q) : jsnum.

(** [Math.floor], [Math.ceil], [Math.round] on finite numbers.  [Math.round]
    rounds halves towards plus infinity. *)
Definition Math_floor (x : Q) : Z := Qfloor x.
Definition Math_ceil (x : Q) : Z := Qceiling x.
Definition Math_round (x : Q) : Z := Qfloor (x + (1 # 2)).

(** [Math.max] on finite numbers. *)
Definition Math_max (a b : Q) : Q := if Qle_bool a b then b else a.

(** [a < b] and [a > b] as booleans. *)
Definition Qlt_bool (a b : Q) : bool := negb (Qle_bool b a).

(* ================================================================== *)
(** ** Demand Estimator: forecastDemand *)

(** An item of interest, as returned by the item-extraction capability. *)
Record ParsedItem : Type := mkParsedItem {
  pi_name : string;
  pi_category : string;
  daily_usage : Q;
  pi_unit : string;
  pi_context : string
}.

(** [{ ...item, horizon_days, base_demand, safety_stock, forecasted_units }] *)
Record ForecastedItem : Type := mkForecastedItem {
  fi_item : ParsedItem;
  horizon_days : Q;
  base_demand : Z;
  safety_stock : Z;
  forecasted_units : Z
}.

(** [const SAFETY_STOCK_MULTIPLIER = 1.20; // 20% buffer] *)
Definition SAFETY_STOCK_MULTIPLIER : Q := 12 # 10.

(** The body of the [parsedItems.map(item => ...)] callback. *)
Definition forecastItem (horizonDays : Q) (item : ParsedItem) : ForecastedItem :=
  let baseDemand := daily_usage item * horizonDays in
  let forecastedUnits := Math_ceil (baseDemand * SAFETY_STOCK_MULTIPLIER) in
  {| fi_item := item;
     horizon_days := horizonDays;
     base_demand := Math_ceil baseDemand;
     safety_stock := Math_ceil (baseDemand * (SAFETY_STOCK_MULTIPLIER - 1));
     forecasted_units := forecastedUnits |}.

Definition forecastDemand (parsedItems : list ParsedItem) (horizonDays : Q)
  : list ForecastedItem :=
  map (forecastItem horizonDays) parsedItems.

(* ================================================================== *)
(** ** Forecaster: holtForecast and the reorder projection *)

(** [{ forecast, level, trend }] *)
Record HoltResult : Type := mkHoltResult {
  forecast : list Z;
  level : Q;
  trend : Q
}.

(** The smoothing loop [for (let t = 1; t < series.length; t++)]:
    [steps] iterations remain, [t] is the loop index, [L] and [b] the two
    mutable locals. *)
Fixpoint holtLoop (series : list Q) (alpha beta : Q) (steps t : nat) (L b : Q)
  : Q * Q :=
  match steps with
  | O => (L, b)
  | S steps' =>
      let LPrev := L in
      let L' := alpha * nth t series 0 + (1 - alpha) * (L + b) in
      let b' := beta * (L' - LPrev) + (1 - beta) * b in
      holtLoop series alpha beta steps' (S t) L' b'
  end.

(** The projection loop [for (let k = 1; k <= horizon; k++) forecast.push(...)]:
    [n] iterations remain and [k] is the loop index. *)
Fixpoint forecastLoop (L b : Q) (n : nat) (k : Z) : list Z :=
  match n with
  | O => []
  | S n' => Z.max 0 (Math_round (L + inject_Z k * b)) :: forecastLoop L b n' (k + 1)
  end.

(** [holtForecast(series, alpha, beta, horizon)] for an integer [horizon]. *)
Definition holtForecast (series : list Q) (alpha beta : Q) (horizon : Z) : HoltResult :=
  match series with
  | [] => {| forecast := []; level := 0; trend := 0 |}
  | s0 :: _ =>
      let L0 := s0 in
      let b0 := if (1 <? length series)%nat then nth 1 series 0 - nth 0 series 0 else 0 in
      let '(L, b) := holtLoop series alpha beta (length series - 1) 1 L0 b0 in
      {| forecast := forecastLoop L b (Z.to_nat horizon) 1; level := L; trend := b |}
  end.

(** The design document's Holt recurrence, written from its words: one
    level/trend update per observation after the first. *)
Definition holt_update (alpha beta : Q) (st : Q * Q) (x : Q) : Q * Q :=
  let '(L_prev, b) := st in
  let L := alpha * x + (1 - alpha) * (L_prev + b) in
  (L, beta * (L - L_prev) + (1 - beta) * b).

Definition holt_init (series : list Q) : Q * Q :=
  match series with
  | [] => (0, 0)
  | [x0] => (x0, 0)
  | x0 :: x1 :: _ => (x0, x1 - x0)
  end.

Definition holt_state (alpha beta : Q) (series : list Q) : Q * Q :=
  fold_left (holt_update alpha beta) (tl series) (holt_init series).

(** Forecast step [k] of the reference definition: [max(0, round(L + k*b))]. *)
Definition holt_step (st : Q * Q) (k : Z) : Z :=
  Z.max 0 (Math_round (fst st + inject_Z k * snd st)).

Definition holt_reference (series : list Q) (alpha beta : Q) (horizon : Z) : HoltResult :=
  match series with
  | [] => {| forecast := []; level := 0; trend := 0 |}
  | _ :: _ =>
      let st := holt_state alpha beta series in
      {| forecast := map (fun i => holt_step st (Z.of_nat i)) (seq 1 (Z.to_nat horizon));
         level := fst st; trend := snd st |}
  end.

(** [Array.prototype.findIndex]: the index of the first element that
    satisfies [p], or [-1]. *)
Fixpoint findIndexFrom {A : Type} (p : A -> bool) (l : list A) (i : Z) : Z :=
  match l with
  | [] => -1
  | x :: l' => if p x then i else findIndexFrom p l' (i + 1)
  end.

Definition findIndex {A : Type} (p : A -> bool) (l : list A) : Z :=
  findIndexFrom p l 0.

(** The reorder projection of the /api/dashboard/forecast handler:
    [let daysUntilReorder = null;
     if (reorderPoint > 0 && trend < 0) {
       const idx = forecast.findIndex((f) => f <= reorderPoint);
       daysUntilReorder = idx >= 0 ? idx + 1 : null; }] *)
Definition daysUntilReorder (reorderPoint trend : Q) (forecast : list Z) : option Z :=
  if Qlt_bool 0 reorderPoint && Qlt_bool trend 0 then
    let idx := findIndex (fun f => Qle_bool (inject_Z f) reorderPoint) forecast in
    if (0 <=? idx)%Z then Some (idx + 1)%Z else None
  else None.

(* ================================================================== *)
(** ** JavaScript strings: truthiness, trim, parseFloat *)

Open Scope string_scope.

(** A string is truthy when it is not empty ([Boolean(s)], [s || d]). *)
Definition truthy (s : string) : bool :=
  match s with
  | EmptyString => false
  | String _ _ => true
  end.

(** [a || b] on strings. *)
Definition orStr (a b : string) : string := if truthy a then a else b.

(** White space and line terminators (the ASCII ones): TAB, LF, VT, FF, CR, SP. *)
Definition isWhite (c : ascii) : bool :=
  match nat_of_ascii c with
  | 9%nat | 10%nat | 11%nat | 12%nat | 13%nat | 32%nat => true
  | _ => false
  end.

Fixpoint trimStart (s : string) : string :=
  match s with
  | EmptyString => EmptyString
  | String c r => if isWhite c then trimStart r else s
  end.

Fixpoint trimEnd (s : string) : string :=
  match s with
  | EmptyString => EmptyString
  | String c r =>
      let r' := trimEnd r in
      if isWhite c && negb (truthy r') then EmptyString else String c r'
  end.

(** [String.prototype.trim] *)
Definition trim (s : string) : string := trimEnd (trimStart s).

Definition isDigit (c : ascii) : bool :=
  let n := nat_of_ascii c in (48 <=? n)%nat && (n <=? 57)%nat.

Definition digitVal (c : ascii) : Z := Z.of_nat (nat_of_ascii c) - 48.

(** The longest prefix of [s] whose characters satisfy [p], and the rest. *)
Fixpoint span (p : ascii -> bool) (s : string) : string * string :=
  match s with
  | EmptyString => (EmptyString, EmptyString)
  | String c r =>
      if p c then let '(a, b) := span p r in (String c a, b)
      else (EmptyString, s)
  end.

(** The value of a string of decimal digits, most significant first. *)
Fixpoint digitsVal (acc : Z) (s : string) : Z :=
  match s with
  | EmptyString => acc
  | String c r => digitsVal (10 * acc + digitVal c) r
  end.

(** [10^e] for an integer exponent. *)
Definition pow10 (e : Z) : Q :=
  if (0 <=? e)%Z then inject_Z (10 ^ e) else 1 / inject_Z (10 ^ (- e)).

(** An optional sign: whether it is [-], and the rest. *)
Definition takeSign (s : string) : bool * string :=
  match s with
  | String "-" r => (true, r)
  | String "+" r => (false, r)
  | _ => (false, s)
  end.

(** The exponent part [e[+-]digits], when it is complete; otherwise 0. *)
Definition exponentPart (s : string) : Z :=
  match s with
  | String c r =>
      if (Ascii.eqb c "e" || Ascii.eqb c "E")%char then
        let '(neg, r1) := takeSign r in
        let '(ed, _) := span isDigit r1 in
        if truthy ed then (if neg then - digitsVal 0 ed else digitsVal 0 ed)%Z else 0%Z
      else 0%Z
  | EmptyString => 0%Z
  end.

(** The global [parseFloat] on a string: leading white space is skipped and
    the longest prefix that is a decimal literal is read; [NaN] when there
    is none. *)
Definition parseFloat (s : string) : jsnum :=
  let '(neg, s1) := takeSign (trimStart s) in
  if String.prefix "Infinity" s1 then JInf neg else
  let '(ip, r1) := span isDigit s1 in
  let '(fp, r2) :=
    match r1 with
    | String "." r => span isDigit r
    | _ => (EmptyString, r1)
    end in
  if negb (truthy ip) && negb (truthy fp) then JNaN else
  let mant := inject_Z (digitsVal 0 (ip ++ fp)) / inject_Z (10 ^ Z.of_nat (String.length fp)) in
  let v := mant * pow10 (exponentPart r2) in
  JFin (if neg then - v else v).

(** Truthiness of a number: [NaN] and zero are falsy. *)
Definition jsTruthy (x : jsnum) : bool :=
  match x with
  | JNaN => false
  | JInf _ => true
  | JFin q => negb (Qeq_bool q 0)
  end.

(** [x || d] on numbers. *)
Definition orNum (x : jsnum) (d : Q) : jsnum := if jsTruthy x then x else JFin d.

(** [parseFloat(fundsCrypto) || 200]: the budget as read by the
    /api/recommend handler ([fundsNum]) and by recommendFromWebShop ([funds]). *)
Definition fundsOf (fundsCrypto : string) : jsnum := orNum (parseFloat fundsCrypto) 200.

(** [q <= x] for a finite [q]. *)
Definition leNum (q : Q) (x : jsnum) : bool :=
  match x with
  | JNaN => false
  | JInf negative => negb negative
  | JFin y => Qle_bool q y
  end.

(** [x - q] for a finite [q]. *)
Definition subNum (x : jsnum) (q : Q) : jsnum :=
  match x with
  | JFin y => JFin (y - q)
  | _ => x
  end.

(** [Math.max(0, x)] *)
Definition max0Num (x : jsnum) : jsnum :=
  match x with
  | JNaN => JNaN
  | JInf negative => if negative then JFin 0 else JInf false
  | JFin y => JFin (Math_max 0 y)
  end.

(* ================================================================== *)
(** ** Query Planner *)

Open Scope list_scope.

(** The [search_queries] member of the query-generation reply, once the
    reply has been parsed as JSON: an array of strings, a single string, or
    absent. *)
Inductive JsonQueries : Type :=
| QArray (qs : list string)
| QSingle (q : string)
| QMissing.

(** The result of a capability call: [{ ok: true, ... }] with its payload,
    or [{ ok: false, error }] (no key, an HTTP error, no JSON in the reply,
    or an exception) as [None]. *)
Definition capability (A : Type) : Type := option A.

(** The tail of callGrokForSearchQueries, from the parsed reply:
    [const queries = Array.isArray(parsed.search_queries) ? parsed.search_queries
         : (parsed.search_queries ? [parsed.search_queries] : []);
     ... search_queries: queries.map((q) => String(q).trim()).filter(Boolean)] *)
Definition queriesOfParsed (search_queries : JsonQueries) : list string :=
  let queries :=
    match search_queries with
    | QArray qs => qs
    | QSingle q => if truthy q then [q] else []
    | QMissing => []
    end in
  filter truthy (map trim queries).

Definition callGrokForSearchQueries (reply : capability JsonQueries)
  : capability (list string) :=
  option_map queriesOfParsed reply.

(** The tail of callGrokParseItems, from the parsed [items] array:
    [parsed.items.filter(i => i.name && i.daily_usage > 0)] *)
Definition callGrokParseItems (reply : capability (list ParsedItem))
  : capability (list ParsedItem) :=
  option_map (filter (fun i => truthy (pi_name i) && Qlt_bool 0 (daily_usage i))) reply.

(** Steps 1 and 2 of the handler: the forecasted items, empty when the
    extraction failed or found nothing. *)
Definition forecastedItemsOf (parseResult : capability (list ParsedItem))
  (forecastHorizon : Q) : list ForecastedItem :=
  match parseResult with
  | Some ((_ :: _) as items) => forecastDemand items forecastHorizon
  | _ => []
  end.

(** Step 3 of the handler: the planned search queries.
    [if (grokQueriesResult.ok && grokQueriesResult.search_queries?.length)
       searchQueries = grokQueriesResult.search_queries;
     else searchQueries = forecastedItems.length
            ? forecastedItems.map(i => i.name)
            : [prompt || 'product'].filter(Boolean);] *)
Definition planQueries (grokQueriesResult : capability (list string))
  (forecastedItems : list ForecastedItem) (prompt : string) : list string :=
  match grokQueriesResult with
  | Some ((_ :: _) as search_queries) => search_queries
  | _ =>
      match forecastedItems with
      | _ :: _ => map (fun i => pi_name (fi_item i)) forecastedItems
      | [] => filter truthy [orStr prompt "product"]
      end
  end.

(** The planner on the raw capability replies. *)
Definition queryPlanner (queriesReply : capability JsonQueries)
  (parseReply : capability (list ParsedItem)) (forecastHorizon : Q)
  (prompt : string) : list string :=
  planQueries (callGrokForSearchQueries queriesReply)
    (forecastedItemsOf (callGrokParseItems parseReply) forecastHorizon) prompt.

(* ================================================================== *)
(** ** Search Dispatcher *)

(** A catalog search result [{ asin, product_name, price, category, link }];
    [price] may be absent; an absent string member is the empty string
    (both are falsy). *)
Record SearchResult : Type := mkSearchResult {
  asin : string;
  product_name : string;
  price : option Q;
  category : string;
  link : string
}.

(** What callWebShopSearch returns: [null] on failure, else the reply's
    JSON, whose [results] member may be absent. *)
Inductive SearchResponse : Type :=
| SearchFailed
| SearchData (results : option (list SearchResult)).

(** The three arrays the search loop fills. *)
Record Dispatch : Type := mkDispatch {
  allResults : list SearchResult;
  usedQueries : list string;
  unfoundQueries : list string
}.

(** One iteration of [for (const q of searchQueries)], given the outcome
    [data] of its single [await callWebShopSearch(q)]. *)
Definition searchStep (st : Dispatch) (qd : string * SearchResponse) : Dispatch :=
  let '(q, data) := qd in
  match data with
  | SearchData results =>
      let n := match results with Some rs => List.length rs | None => O end in
      let used := usedQueries st ++ [q] in
      if (0 <? n)%nat then
        {| allResults := allResults st ++ match results with Some rs => rs | None => [] end;
           usedQueries := used;
           unfoundQueries := unfoundQueries st |}
      else
        {| allResults := allResults st;
           usedQueries := used;
           unfoundQueries := unfoundQueries st ++ [q] |}
  | SearchFailed =>
      {| allResults := allResults st;
         usedQueries := usedQueries st;
         unfoundQueries := unfoundQueries st ++ [q] |}
  end.

(** The whole loop over the planned queries, each paired with the outcome of
    its call. *)
Definition searchLoop (calls : list (string * SearchResponse)) : Dispatch :=
  fold_left searchStep calls
    {| allResults := []; usedQueries := []; unfoundQueries := [] |}.

(** The loop against a catalog that answers by query. *)
Definition dispatch (callWebShopSearch : string -> SearchResponse)
  (searchQueries : list string) : Dispatch :=
  searchLoop (map (fun q => (q, callWebShopSearch q)) searchQueries).

(** A JavaScript [Map] with string keys: the entries in insertion order. *)
Definition JsMap (V : Type) : Type := list (string * V).

Definition Map_has {V : Type} (m : JsMap V) (k : string) : bool :=
  existsb (fun kv => String.eqb (fst kv) k) m.

(** [m.set(k, v)]: a present key keeps its place, a new one goes last. *)
Fixpoint Map_set {V : Type} (m : JsMap V) (k : string) (v : V) : JsMap V :=
  match m with
  | [] => [(k, v)]
  | (k', v') :: m' =>
      if String.eqb k' k then (k', v) :: m' else (k', v') :: Map_set m' k v
  end.

Definition Map_values {V : Type} (m : JsMap V) : list V := map snd m.

(** [for (const r of allResults)
       if (r.asin && !byAsin.has(r.asin)) byAsin.set(r.asin, r);
     return Array.from(byAsin.values());] *)
Definition mergeStep (byAsin : JsMap SearchResult) (r : SearchResult)
  : JsMap SearchResult :=
  if truthy (asin r) && negb (Map_has byAsin (asin r))
  then Map_set byAsin (asin r) r else byAsin.

Definition mergeSearchResults (allResults : list SearchResult) : list SearchResult :=
  Map_values (fold_left mergeStep allResults []).

(** First occurrences, written from the design document's words: keep a
    result when no earlier one has its product id. *)
Fixpoint first_occurrences (seen : list string) (l : list SearchResult)
  : list SearchResult :=
  match l with
  | [] => []
  | r :: l' =>
      if existsb (String.eqb (asin r)) seen then first_occurrences seen l'
      else r :: first_occurrences (asin r :: seen) l'
  end.

(* ================================================================== *)
(** ** Selector: recommendFromWebShop *)

(** A recommended item [{ asin, product_name, quantity, unit_price, reason, link }]. *)
Record SelectedItem : Type := mkSelectedItem {
  si_asin : string;
  si_product_name : string;
  quantity : Q;
  unit_price : Q;
  reason : string;
  si_link : string
}.

Inductive Source : Type := grok | webshop.

(** [{ data: { items }, source }]; the free-text [reasoning] is left out. *)
Record Recommendation : Type := mkRecommendation {
  items : list SelectedItem;
  source : Source
}.

(** [link: list.find((r) => r.asin === i.asin)?.link || i.link] *)
Definition relink (list : list SearchResult) (i : SelectedItem) : SelectedItem :=
  let found :=
    match find (fun r => String.eqb (asin r) (si_asin i)) list with
    | Some r => link r
    | None => EmptyString
    end in
  {| si_asin := si_asin i; si_product_name := si_product_name i;
     quantity := quantity i; unit_price := unit_price i; reason := reason i;
     si_link := orStr found (si_link i) |}.

(** callGrokOnSearchResults, from the [items] of the ranking reply: nothing
    without a key; otherwise the reply's items with their links restored. *)
Definition callGrokOnSearchResults (key : bool) (reply : capability (list SelectedItem))
  (searchResults : list SearchResult) : capability (list SelectedItem) :=
  if key then option_map (map (relink searchResults)) reply else None.

(** The callback of [results.slice(0, 8).map(...)]. *)
Definition fallbackItem (r : SearchResult) : SelectedItem :=
  {| si_asin := asin r;
     si_product_name := product_name r;
     quantity := 1;
     unit_price := match price r with Some p => p | None => 0 end;
     reason := "Found on WebShop (" ++ orStr (category r) "product" ++ ").";
     si_link := link r |}.

(** The deterministic rule:
    [results.slice(0, 8).map(...).filter((i) => i.unit_price <= funds)] *)
Definition fallbackItems (results : list SearchResult) (funds : jsnum) : list SelectedItem :=
  filter (fun i => leNum (unit_price i) funds) (map fallbackItem (firstn 8 results)).

(** recommendFromWebShop.  [key] tells whether an API key is configured and
    [grokReply] is the parsed reply of the ranking capability, asked only
    when there is a key and a result.  The parameters [prompt],
    [forecastedItems] and [searchQueriesRun] of the source only go into the
    text sent to that capability and [chainLog] only switches logging; they
    are left out. *)
Definition recommendFromWebShop (key : bool) (grokReply : capability (list SelectedItem))
  (mergedResults : list SearchResult) (fundsCrypto : string) : Recommendation :=
  let results := mergedResults in
  let funds := fundsOf fundsCrypto in
  let grokResult :=
    if key && (0 <? List.length results)%nat
    then callGrokOnSearchResults key grokReply results else None in
  match grokResult with
  | Some ((_ :: _) as chosen) => {| items := chosen; source := grok |}
  | _ => {| items := fallbackItems results funds; source := webshop |}
  end.

(** [items.reduce((sum, i) => sum + (i.quantity * i.unit_price), 0)] *)
Definition totalCostOf (items : list SelectedItem) : Q :=
  fold_left (fun sum i => sum + quantity i * unit_price i) items 0.

(* ================================================================== *)
(** ** Unfound Resolver: parsePriceFromText and buildUnfoundItems *)

(** A web-search fallback result [{ title, link, snippet, price? }]. *)
Record RawResult : Type := mkRawResult {
  title : string;
  raw_link : string;
  snippet : string;
  raw_price : option string
}.

Definition isDigitOrComma (c : ascii) : bool := isDigit c || Ascii.eqb c ","%char.

(** The pattern [[\d,]+(?:\.\d{2})?] matched at the start of [s]: the matched
    text, if any. *)
Definition matchAmount (s : string) : option string :=
  let '(body, rest) := span isDigitOrComma s in
  if truthy body then
    match rest with
    | String "." (String d1 (String d2 _)) =>
        if isDigit d1 && isDigit d2
        then Some (body ++ String "." (String d1 (String d2 EmptyString)))%string
        else Some body
    | _ => Some body
    end
  else None.

(** [text.match(/\$[\d,]+(?:\.\d{2})?/)]: the leftmost match, without its
    dollar sign. *)
Fixpoint matchPrice (text : string) : option string :=
  match text with
  | EmptyString => None
  | String c r =>
      if Ascii.eqb c "$"%char then
        match matchAmount r with
        | Some m => Some m
        | None => matchPrice r
        end
      else matchPrice r
  end.

(** [s.replace(/[$,]/g, '')] on a match that has lost its dollar sign. *)
Fixpoint dropCommas (s : string) : string :=
  match s with
  | EmptyString => EmptyString
  | String c r => if Ascii.eqb c ","%char then dropCommas r else String c (dropCommas r)
  end.

(** parsePriceFromText on a string: the first price in the text, when it is
    finite and positive. *)
Definition parsePriceFromText (text : string) : option Q :=
  if truthy text then
    match matchPrice text with
    | None => None
    | Some m =>
        match parseFloat (dropCommas m) with
        | JFin n => if Qlt_bool 0 n then Some n else None
        | _ => None
        end
    end
  else None.

(** [a || b] on optional prices (a recovered price is never zero). *)
Definition orPrice (a b : option Q) : option Q :=
  match a with
  | Some _ => a
  | None => b
  end.

(** An entry of [unfound_items]. *)
Record UnfoundItem : Type := mkUnfoundItem {
  uf_query : string;
  uf_product_name : string;
  uf_link : string;
  uf_search_results : option (list RawResult);
  uf_unit_price : option Q;
  uf_quantity : Z;
  uf_line_total : option Q
}.

(** [Number.isFinite(budgetForQuantity) && budgetForQuantity > 0
      ? budgetForQuantity : 0] *)
Definition startingPool (budgetForQuantity : jsnum) : Q :=
  match budgetForQuantity with
  | JFin b => if Qlt_bool 0 b then b else 0
  | _ => 0
  end.

(** [Math.min(99, Math.max(1, Math.floor(remaining / unit_price)))] *)
Definition quantityFor (remaining unit_price : Q) : Z :=
  Z.min 99 (Z.max 1 (Math_floor (remaining / unit_price))).

Section UnfoundResolver.

(** [externalSearchLink(query)]: the configured search URL followed by the
    URI-encoded query. *)
Variable externalSearchLink : string -> string.

(** The body of the loop of buildUnfoundItems for one query and its batch
    [rawSearches[i] || []]: the new [remaining] and the item pushed. *)
Definition unfoundStep (remaining : Q) (query : string) (search_results : list RawResult)
  : Q * UnfoundItem :=
  let first := nth_error search_results 0 in
  let link := orStr (match first with Some f => raw_link f | None => EmptyString end)
                    (externalSearchLink query) in
  let product_name := orStr (match first with Some f => title f | None => EmptyString end)
                            query in
  let snippet := match first with Some f => snippet f | None => EmptyString end in
  let first_price :=
    match first with
    | Some f => match raw_price f with Some p => parsePriceFromText p | None => None end
    | None => None
    end in
  let unit_price :=
    orPrice first_price
      (orPrice (parsePriceFromText snippet) (parsePriceFromText product_name)) in
  let quantity :=
    match unit_price with
    | Some p => quantityFor remaining p
    | None => 1%Z
    end in
  let remaining' :=
    match unit_price with
    | Some p => if (0 <? quantity)%Z then remaining - inject_Z quantity * p else remaining
    | None => remaining
    end in
  let line_total :=
    match unit_price with
    | Some p => Some (inject_Z quantity * p)
    | None => None
    end in
  (remaining',
   {| uf_query := query;
      uf_product_name := product_name;
      uf_link := link;
      uf_search_results :=
        if (0 <? List.length search_results)%nat then Some search_results else None;
      uf_unit_price := unit_price;
      uf_quantity := quantity;
      uf_line_total := line_total |}).

(** [for (let i = 0; i < unfoundQueries.length; i++)], from index [i] on,
    with the mutable [remaining] and the [items] pushed so far. *)
Fixpoint unfoundLoop (rawSearches : list (list RawResult)) (queries : list string)
  (i : nat) (remaining : Q) (items : list UnfoundItem) : Q * list UnfoundItem :=
  match queries with
  | [] => (remaining, items)
  | query :: queries' =>
      let '(remaining', item) := unfoundStep remaining query (nth i rawSearches []) in
      unfoundLoop rawSearches queries' (S i) remaining' (items ++ [item])
  end.

(** The final value of the local [remaining], and the items returned. *)
Definition buildUnfoundState (unfoundQueries : list string)
  (rawSearches : list (list RawResult)) (budgetForQuantity : jsnum)
  : Q * list UnfoundItem :=
  unfoundLoop rawSearches unfoundQueries 0 (startingPool budgetForQuantity) [].

Definition buildUnfoundItems (unfoundQueries : list string)
  (rawSearches : list (list RawResult)) (budgetForQuantity : jsnum) : list UnfoundItem :=
  snd (buildUnfoundState unfoundQueries rawSearches budgetForQuantity).


End UnfoundResolver.

(* ================================================================== *)
(** ** The /api/recommend chain, after the holiday shortcut *)

(** What the outside world answers during one request: whether an API key
    is configured, the parsed replies of the three language-model calls,
    the catalog search and the web-search fallback. *)
Record External : Type := mkExternal {
  key : bool;
  parseReply : capability (list ParsedItem);
  queriesReply : capability JsonQueries;
  callWebShopSearch : string -> SearchResponse;
  runExternalSearch : string -> list RawResult;
  selectReply : capability (list SelectedItem)
}.

(** The JSON the handler answers with (the fields that carry data). *)
Record Response : Type := mkResponse {
  parsedItems : list ForecastedItem;
  rec_items : list SelectedItem;
  unfound_items : list UnfoundItem;
  totalCost : Q;
  rec_source : Source;
  webshopQueries : list string
}.

Section Handler.

Variable externalSearchLink : string -> string.
Variable world : External.

Definition recommendChain (prompt fundsCrypto : string) (forecastHorizon : Q) : Response :=
  let forecastedItems :=
    forecastedItemsOf (callGrokParseItems (parseReply world)) forecastHorizon in
  let searchQueries :=
    planQueries (callGrokForSearchQueries (queriesReply world)) forecastedItems prompt in
  let d := dispatch (callWebShopSearch world) searchQueries in
  let fundsNum := fundsOf fundsCrypto in
  let rawUnfoundSearches := map (runExternalSearch world) (unfoundQueries d) in
  match allResults d with
  | [] =>
      {| parsedItems := forecastedItems;
         rec_items := [];
         unfound_items :=
           buildUnfoundItems externalSearchLink (unfoundQueries d) rawUnfoundSearches fundsNum;
         totalCost := 0;
         rec_source := webshop;
         webshopQueries := usedQueries d |}
  | _ :: _ =>
      let merged := mergeSearchResults (allResults d) in
      let result := recommendFromWebShop (key world) (selectReply world) merged fundsCrypto in
      let totalCost := totalCostOf (items result) in
      let remainingBudget := max0Num (subNum fundsNum totalCost) in
      {| parsedItems := forecastedItems;
         rec_items := items result;
         unfound_items :=
           buildUnfoundItems externalSearchLink (unfoundQueries d) rawUnfoundSearches
             remainingBudget;
         totalCost := inject_Z (Math_round (totalCost * 100)) / 100;
         rec_source := source result;
         webshopQueries := usedQueries d |}
  end.

End Handler.

(* ================================================================== *)
(** ** Payment Simulator: the ledger of the approved recommendation (App.jsx) *)

(** A row of [paymentSteps]. *)
Record PaymentStep : Type := mkPaymentStep {
  ps_product_name : string;
  ps_quantity : Q;
  ps_unit_price : Q;
  lineTotal : Q;
  balanceAfter : Q
}.

(** [items.map((item) => { const lineTotal = item.quantity * item.unit_price;
      runningBalance -= lineTotal; return { ..., lineTotal, balanceAfter: runningBalance }; })]
    with the captured [runningBalance] threaded through: the final balance
    and the rows. *)
Fixpoint paymentLoop (runningBalance : Q) (items : list SelectedItem)
  : Q * list PaymentStep :=
  match items with
  | [] => (runningBalance, [])
  | item :: items' =>
      let lineTotal := quantity item * unit_price item in
      let runningBalance' := runningBalance - lineTotal in
      let step :=
        {| ps_product_name := si_product_name item;
           ps_quantity := quantity item;
           ps_unit_price := unit_price item;
           lineTotal := lineTotal;
           balanceAfter := runningBalance' |} in
      let '(final, steps) := paymentLoop runningBalance' items' in
      (final, step :: steps)
  end.

(** What the payment table shows: row 0 (the agent balance), one row per
    item, and the closing row (total spent, remaining balance). *)
Record Ledger : Type := mkLedger {
  startBalance : Q;
  paymentSteps : list PaymentStep;
  totalSpent : Q;
  runningBalance : Q
}.

Definition paymentLedger (items : list SelectedItem) (fundsAmountUsd : Q) : Ledger :=
  let startBalance := fundsAmountUsd in
  let '(runningBalance, paymentSteps) := paymentLoop startBalance items in
  {| startBalance := startBalance;
     paymentSteps := paymentSteps;
     totalSpent := startBalance - runningBalance;
     runningBalance := runningBalance |}.


(** The sum of [quantity * unit_price] over a list of items. *)
Fixpoint sumLines (items : list SelectedItem) : Q :=
  match items with
  | [] => 0
  | i :: items' => quantity i * unit_price i + sumLines items'
  end.

(* ================================================================== *)
(** ** Notions used to state the properties *)

(** [i] is the least index of [l] whose element satisfies [p]. *)
Definition first_hit {A : Type} (p : A -> bool) (l : list A) (i : nat) : Prop :=
  (exists x, nth_error l i = Some x /\ p x = true)
  /\ forall j y, (j < i)%nat -> nth_error l j = Some y -> p y = false.

(** A string with no white space at either end. *)
Definition trimmed (s : string) : Prop := trim s = s.

(** The keys of [byAsin] are the ids of its values. *)
Definition keyed (m : JsMap SearchResult) : Prop :=
  Forall (fun kv => fst kv = asin (snd kv)) m.

(** The results a call contributes to the combined pool. *)
Definition resultsOf (data : SearchResponse) : list SearchResult :=
  match data with
  | SearchData (Some rs) => rs
  | _ => []
  end.

(** The call was answered (did not fail). *)
Definition answered (data : SearchResponse) : bool :=
  match data with
  | SearchData _ => true
  | SearchFailed => false
  end.

(** The call failed or was answered with no result. *)
Definition noResults (data : SearchResponse) : bool :=
  match resultsOf data with
  | [] => true
  | _ :: _ => false
  end.

(* ================================================================== *)
(** ** Example data *)



(** A catalog result with the given id and price. *)
Definition result_of (id : string) (p : Q) : SearchResult :=
  {| asin := id; product_name := "item"; price := Some p; category := ""; link := "" |}.

(** Six queries returned by the query-generation capability. *)
Definition six_queries : JsonQueries :=
  QArray ["usb cable"; "hdmi cable"; "mouse"; "keyboard"; "monitor"; "webcam"]%string.

(** Ten catalog results, each priced 10. *)
Definition pool10 : list SearchResult :=
  map (fun id => result_of id 10)
    ["P0"; "P1"; "P2"; "P3"; "P4"; "P5"; "P6"; "P7"; "P8"; "P9"]%string.

(** One item the ranking capability picks: three units at 100. *)
Definition ranked_pick : SelectedItem :=
  {| si_asin := "P0"; si_product_name := "item"; quantity := 3; unit_price := 100;
     reason := "best match"; si_link := "" |}.

(** Two approved items. *)
Definition cart : list SelectedItem :=
  [ {| si_asin := "A1"; si_product_name := "usb cable"; quantity := 3; unit_price := 10;
       reason := ""; si_link := "" |};
    {| si_asin := "B2"; si_product_name := "mouse"; quantity := 1; unit_price := 25;
       reason := ""; si_link := "" |} ]%string.

(** The fallback link used in the examples. *)
Definition shopLink (query : string) : string :=
  ("https://www.google.com/search?tbm=shop&q=" ++ query)%string.



(* ================================================================== *)
(** ** Further functions of the API server: quantities and the holiday reply *)


(** The hard-coded holiday reply of /api/recommend:
    [const fundsNum = parseFloat(fundsCrypto) || 200;
     const unitPrice = 499;
     const quantity = Math.min(99, Math.max(1, Math.floor(fundsNum / unitPrice)));
     const totalCost = quantity * unitPrice;]
    The quantity is [None] where the source would compute [NaN]. *)
Definition holidayUnitPrice : Q := 499.

Definition holidayQuantity (fundsCrypto : string) : option Z :=
  match fundsOf fundsCrypto with
  | JNaN => None
  | JInf negative => Some (if negative then 1%Z else 99%Z)
  | JFin fundsNum => Some (Z.min 99 (Z.max 1 (Math_floor (fundsNum / holidayUnitPrice))))
  end.

Definition holidayTotalCost (fundsCrypto : string) : option Q :=
  option_map (fun quantity => inject_Z quantity * holidayUnitPrice) (holidayQuantity fundsCrypto).

(* ================================================================== *)
(** ** The dashboard handlers *)

(** [parseInt(s, 10)]: leading white space, an optional sign and the longest
    run of decimal digits; [None] stands for [NaN]. *)
Definition parseInt (s : string) : option Z :=
  let '(neg, s1) := takeSign (trimStart s) in
  let '(ds, _) := span isDigit s1 in
  if truthy ds then Some (if neg then - digitsVal 0 ds else digitsVal 0 ds)%Z else None.

(** [parseInt(param, 10) || d] for a query parameter that may be absent. *)
Definition intParamOr (param : option string) (d : Z) : Z :=
  match param with
  | Some s =>
      match parseInt s with
      | Some n => if (n =? 0)%Z then d else n
      | None => d
      end
  | None => d
  end.

(** /api/dashboard/series:
    [Math.min(365, Math.max(7, parseInt(req.query.days, 10) || 90))] *)
Definition seriesDays (days : option string) : Z :=
  Z.min 365 (Z.max 7 (intParamOr days 90)).

(** /api/dashboard/forecast:
    [Math.min(90, Math.max(7, parseInt(req.query.horizon, 10) || 30))] *)
Definition forecastHorizonParam (horizon : option string) : Z :=
  Z.min 90 (Z.max 7 (intParamOr horizon 30)).

(** [Math.min(365, parseInt(req.query.days_back, 10) || 90)] *)
Definition forecastDaysBack (days_back : option string) : Z :=
  Z.min 365 (intParamOr days_back 90).

(** [m.get(k)] / [obj[k]] on a map with string keys. *)
Fixpoint Map_get {V : Type} (m : JsMap V) (k : string) : option V :=
  match m with
  | [] => None
  | (k', v) :: m' => if String.eqb k' k then Some v else Map_get m' k
  end.

(** The names every plain object inherits from [Object.prototype].  Read
    on an object that has no property of that name of its own, each gives
    a function (for [__proto__], the prototype itself): a value that is
    truthy, is not a number and has none of the properties this program
    reads. *)
Definition objectPrototypeNames : list string :=
  ["constructor"; "__defineGetter__"; "__defineSetter__"; "hasOwnProperty";
   "__lookupGetter__"; "__lookupSetter__"; "isPrototypeOf";
   "propertyIsEnumerable"; "toString"; "valueOf"; "__proto__";
   "toLocaleString"]%string.

Definition inherited (k : string) : bool :=
  existsb (String.eqb k) objectPrototypeNames.

(** A product of tech_products.json, as far as getReorderPoints reads it. *)
Record CatalogProduct : Type := mkCatalogProduct {
  cp_asin : string;
  cp_reorder_point : option Q;
  cp_reorder_qty : option Q;
  cp_name : string
}.

(** [{ reorder_point, reorder_qty, name }] *)
Record ReorderInfo : Type := mkReorderInfo {
  reorder_point : Q;
  reorder_qty : Q;
  ri_name : string
}.

(** getReorderPoints, from the parsed catalog ([None] when reading or
    parsing it throws):
    [for (const p of data) map[p.asin] = { reorder_point: p.reorder_point ?? 0,
         reorder_qty: p.reorder_qty ?? 0, name: p.name };] *)
Definition reorderEntry (p : CatalogProduct) : ReorderInfo :=
  {| reorder_point := match cp_reorder_point p with Some x => x | None => 0 end;
     reorder_qty := match cp_reorder_qty p with Some x => x | None => 0 end;
     ri_name := cp_name p |}.

Definition getReorderPoints (data : capability (list CatalogProduct)) : JsMap ReorderInfo :=
  match data with
  | Some ps => fold_left (fun map p => Map_set map (cp_asin p) (reorderEntry p)) ps []
  | None => []
  end.

(** A point of a product's time series. *)
Record TimeSeriesPoint : Type := mkTimeSeriesPoint {
  date : string;
  quantity_on_hand : Z;
  quantity_sold : Z
}.

(** A value of the object returned by getInventoryTimeSeries. *)
Record ProductSeries : Type := mkProductSeries {
  ps_name : string;
  ps_category : string;
  points : list TimeSeriesPoint
}.

(** An element of [products] in the /api/dashboard/forecast reply. *)
Record ForecastProduct : Type := mkForecastProduct {
  fp_asin : string;
  fp_series : list TimeSeriesPoint;
  fp_forecast : list Z;
  forecast_daily_sales : Q;
  fp_level : Q;
  fp_trend : Q;
  fp_reorder_point : Q;
  fp_reorder_qty : Q;
  last_date : option string;
  last_quantity : Q;
  days_until_reorder : option Z
}.

(** [arr.reduce((a, b) => a + b, 0)] on integers. *)
Definition sumZ (l : list Z) : Z := fold_left Z.add l 0%Z.

(** The body of the loop [for (const [asin, v] of Object.entries(byAsin))].
    [reorder[asin]?.reorder_point ?? 0] reads the reorder data stored under
    the id; anything else found there (nothing, or a member inherited from
    the prototype, which has no [reorder_point]) gives 0. *)
Definition forecastProduct (reorder : JsMap ReorderInfo) (horizon : Z)
  (entry : string * ProductSeries) : ForecastProduct :=
  let '(asin, v) := entry in
  let qtySeries := map (fun p => inject_Z (quantity_on_hand p)) (points v) in
  let soldSeries := map (fun p => inject_Z (quantity_sold p)) (points v) in
  let r := holtForecast qtySeries (3 # 10) (1 # 10) horizon in
  let soldForecast := forecast (holtForecast soldSeries (3 # 10) (1 # 10) horizon) in
  let reorderPoint :=
    match Map_get reorder asin with Some i => reorder_point i | None => 0 end in
  let reorderQty :=
    match Map_get reorder asin with Some i => reorder_qty i | None => 0 end in
  let lastDate := option_map date (nth_error (points v) (List.length (points v) - 1)) in
  let lastQty :=
    match nth_error qtySeries (List.length qtySeries - 1) with
    | Some q => q
    | None => 0
    end in
  let daily := inject_Z (sumZ (firstn 7 soldForecast)) / 7 in
  {| fp_asin := asin;
     fp_series := points v;
     fp_forecast := forecast r;
     forecast_daily_sales := if Qeq_bool daily 0 then 0 else daily;
     fp_level := level r;
     fp_trend := trend r;
     fp_reorder_point := reorderPoint;
     fp_reorder_qty := reorderQty;
     last_date := lastDate;
     last_quantity := lastQty;
     days_until_reorder := daysUntilReorder reorderPoint (trend r) (forecast r) |}.

(** The [products] of the /api/dashboard/forecast reply, from the query
    parameter, the parsed catalog and the entries of the time series. *)
Definition dashboardForecast (horizon : option string)
  (catalog : capability (list CatalogProduct))
  (byAsin : list (string * ProductSeries)) : list ForecastProduct :=
  map (forecastProduct (getReorderPoints catalog) (forecastHorizonParam horizon)) byAsin.

(* ================================================================== *)
(** ** Notions used to state the further properties *)


(** A product whose stock went 10, 8, 6, 4 over four days. *)
Definition declining_stock : ProductSeries :=
  {| ps_name := "usb cable"; ps_category := "cables";
     points :=
       [ {| date := "2024-01-01"; quantity_on_hand := 10; quantity_sold := 2 |};
         {| date := "2024-01-02"; quantity_on_hand := 8; quantity_sold := 2 |};
         {| date := "2024-01-03"; quantity_on_hand := 6; quantity_sold := 2 |};
         {| date := "2024-01-04"; quantity_on_hand := 4; quantity_sold := 2 |} ]%string |}.



(** An outside world without an API key whose catalog answers every query
    with the same two results, one of them over a budget of 50. *)
Definition cable_world : External :=
  {| key := false; parseReply := None; queriesReply := None;
     callWebShopSearch := fun _ => SearchData (Some [result_of "A1" 10; result_of "B2" 70]);
     runExternalSearch := fun _ => [];
     selectReply := None |}.

(* ================================================================== *)
(** ** The holiday shortcut of /api/recommend *)

(** [String.prototype.toLowerCase] on ASCII letters. *)
Definition toLowerChar (c : ascii) : ascii :=
  let n := nat_of_ascii c in
  if (65 <=? n)%nat && (n <=? 90)%nat then ascii_of_nat (n + 32) else c.

Fixpoint toLowerCase (s : string) : string :=
  match s with
  | EmptyString => EmptyString
  | String c r => String (toLowerChar c) (toLowerCase r)
  end.

(** [s.includes(sub)] *)
Fixpoint includes (s sub : string) : bool :=
  String.prefix sub s
  || match s with
     | EmptyString => false
     | String _ r => includes r sub
     end.

(** The regular expressions the handler uses: literal text, [\s*],
    concatenation, alternation and an optional group. *)
Inductive regex : Type :=
| Lit (text : string)
| WsStar
| Seq (a b : regex)
| Alt (a b : regex)
| Opt (a : regex).

(** [s] without the prefix [p], when it starts with [p]. *)
Fixpoint stripPrefix (p s : string) : option string :=
  match p, s with
  | EmptyString, _ => Some s
  | String a p', String b s' => if Ascii.eqb a b then stripPrefix p' s' else None
  | String _ _, EmptyString => None
  end.

(** [\s*] at the start of [s], longest run first, then what follows ([k]). *)
Fixpoint wsStarK (s : string) (k : string -> bool) : bool :=
  match s with
  | String c r => (isWhite c && wsStarK r k) || k s
  | EmptyString => k s
  end.

(** A backtracking match of [r] at the start of [s]; [k] decides on the rest. *)
Fixpoint matchK (r : regex) (s : string) (k : string -> bool) : bool :=
  match r with
  | Lit text =>
      match stripPrefix text s with
      | Some rest => k rest
      | None => false
      end
  | WsStar => wsStarK s k
  | Seq a b => matchK a s (fun rest => matchK b rest k)
  | Alt a b => matchK a s k || matchK b s k
  | Opt a => matchK a s k || k s
  end.

(** [/r/.test(s)]: a match at some position of [s]. *)
Fixpoint test (r : regex) (s : string) : bool :=
  matchK r s (fun _ => true)
  || match s with
     | EmptyString => false
     | String _ s' => test r s'
     end.

(** [/what would sell fastest on holiday(s)?/] *)
Definition exactHolidayRe : regex :=
  Seq (Lit "what would sell fastest on holiday") (Opt (Lit "s")).

(** [/holiday/] *)
Definition holidayRe : regex := Lit "holiday".

(** [/sell\s*fastest|fastest\s*(selling|to\s*sell)|what would sell fastest/] *)
Definition sellFastestRe : regex :=
  Alt (Seq (Lit "sell") (Seq WsStar (Lit "fastest")))
    (Alt (Seq (Lit "fastest")
            (Seq WsStar (Alt (Lit "selling") (Seq (Lit "to") (Seq WsStar (Lit "sell"))))))
       (Lit "what would sell fastest")).

(** The trigger of the hard-coded holiday reply:
    [const promptLower = (prompt || '').toLowerCase().trim();
     const exactMatch = promptLower === 'what would sell fastest on holidays'
       || /what would sell fastest on holiday(s)?/.test(promptLower);
     const hasHoliday = /holiday/.test(promptLower);
     const hasSellFastest = /sell\s*fastest|.../.test(promptLower)
       || (promptLower.includes('fastest') && promptLower.includes('sell'))
       || (promptLower.includes('sell') && promptLower.includes('fast'));
     const isHolidaySellPrompt = exactMatch || (hasHoliday && hasSellFastest);] *)
Definition isHolidaySellPrompt (prompt : string) : bool :=
  let promptLower := trim (toLowerCase prompt) in
  let exactMatch :=
    String.eqb promptLower "what would sell fastest on holidays"
    || test exactHolidayRe promptLower in
  let hasHoliday := test holidayRe promptLower in
  let hasSellFastest :=
    test sellFastestRe promptLower
    || (includes promptLower "fastest" && includes promptLower "sell")
    || (includes promptLower "sell" && includes promptLower "fast") in
  exactMatch || (hasHoliday && hasSellFastest).

(** The words matched by a regular expression. *)
Fixpoint lang (r : regex) (m : string) : Prop :=
  match r with
  | Lit text => m = text
  | WsStar => forall c, In c (list_ascii_of_string m) -> isWhite c = true
  | Seq a b => exists m1 m2, m = (m1 ++ m2)%string /\ lang a m1 /\ lang b m2
  | Alt a b => lang a m \/ lang b m
  | Opt a => lang a m \/ m = EmptyString
  end.

(* ================================================================== *)
(** ** The web-search fallback: externalSearchLink and runExternalSearch *)

Module WebSearch.

(** The characters [encodeURIComponent] leaves as they are:
    letters, digits and [- _ . ! ~ * ' ( )]. *)
Definition isUnreserved (c : ascii) : bool :=
  let n := nat_of_ascii c in
  ((65 <=? n)%nat && (n <=? 90)%nat)
  || ((97 <=? n)%nat && (n <=? 122)%nat)
  || ((48 <=? n)%nat && (n <=? 57)%nat)
  || existsb (Ascii.eqb c) ["-"; "_"; "."; "!"; "~"; "*"; "'"; "("; ")"]%char.

(** The upper-case hexadecimal digit of a number below 16. *)
Definition hexDigit (n : nat) : ascii :=
  if (n <? 10)%nat then ascii_of_nat (48 + n) else ascii_of_nat (55 + n).

(** [encodeURIComponent]: every other byte becomes [%XX]. *)
Fixpoint encodeURIComponent (s : string) : string :=
  match s with
  | EmptyString => EmptyString
  | String c r =>
      if isUnreserved c then String c (encodeURIComponent r)
      else
        let n := nat_of_ascii c in
        String "%" (String (hexDigit (n / 16)) (String (hexDigit (n mod 16))
          (encodeURIComponent r)))
  end.

(** [`${EXTERNAL_SEARCH_BASE}=${encodeURIComponent((query || '').trim())}`];
    [base] is the configured EXTERNAL_SEARCH_BASE. *)
Definition externalSearchLink (base query : string) : string :=
  (base ++ "=" ++ encodeURIComponent (trim query))%string.

(** The default EXTERNAL_SEARCH_BASE. *)
Definition defaultSearchBase : string := "https://www.google.com/search?tbm=shop&q".

(** [s.replace(/<[^>]+>/g, '')], scanning from the left: [pending] holds the
    text read since an opening [<] that has not been closed yet. *)
Fixpoint stripTagsFrom (pending : option string) (s : string) : string :=
  match s with
  | EmptyString =>
      match pending with
      | None => EmptyString
      | Some buf => String "<" buf
      end
  | String c r =>
      match pending with
      | None =>
          if Ascii.eqb c "<" then stripTagsFrom (Some EmptyString) r
          else String c (stripTagsFrom None r)
      | Some buf =>
          if Ascii.eqb c ">" then
            if truthy buf then stripTagsFrom None r
            else String "<" (String ">" (stripTagsFrom None r))
          else stripTagsFrom (Some (buf ++ String c EmptyString)%string) r
      end
  end.

Definition stripTags (s : string) : string := stripTagsFrom None s.

(** A result of the DuckDuckGo search, as far as it is read. *)
Record DdgResult : Type := mkDdgResult {
  ddg_title : string;
  ddg_url : string;
  description : string;
  rawDescription : string
}.

(** The reply of the DuckDuckGo search. *)
Record DdgReply : Type := mkDdgReply {
  ddg_noResults : bool;
  ddg_results : option (list DdgResult)
}.

(** The double-quote character, as a string. *)
Definition dquote : string := String (ascii_of_nat 34) EmptyString.

(** [fallbackResult()]: one synthesized result that links to the search page. *)
Definition fallbackResult (base q : string) : list RawResult :=
  [ {| title := ("Search for " ++ dquote ++ q ++ dquote ++ " online")%string;
       raw_link := externalSearchLink base q;
       snippet := "Click to open product search in a new tab.";
       raw_price := None |} ].

(** The callback of [res.results.slice(0, maxResults).map(...)]. *)
Definition ddgToRaw (r : DdgResult) : RawResult :=
  {| title := ddg_title r;
     raw_link := ddg_url r;
     snippet :=
       substring 0 160 (stripTags (orStr (description r) (orStr (rawDescription r) EmptyString)));
     raw_price := None |}.

(** runExternalSearch.  [amazon] is the outcome of the Amazon scrape raced
    against its timeout and [ddg] the outcome of the DuckDuckGo search raced
    against its timeout ([None] when the attempt throws or times out). *)
Definition runExternalSearch (base : string) (amazon : capability (list RawResult))
  (ddg : capability DdgReply) (query : string) (maxResults : nat) : list RawResult :=
  let q := trim query in
  if negb (truthy q) then []
  else
    match amazon with
    | Some ((_ :: _) as amazonResults) => amazonResults
    | _ =>
        match ddg with
        | Some res =>
            if ddg_noResults res then fallbackResult base q
            else
              match ddg_results res with
              | Some ((_ :: _) as results) => map ddgToRaw (firstn maxResults results)
              | _ => fallbackResult base q
              end
        | None => fallbackResult base q
        end
    end.

End WebSearch.

(* ================================================================== *)
(** ** The restock schedule of the frontend (App.jsx, AgenticRestock) *)

(** A product of the forecast reply, as far as the schedule reads it. *)
Record RestockCandidate : Type := mkRestockCandidate {
  rc_asin : string;
  rc_reorder_qty : option Q;
  rc_days_until_reorder : option Z
}.

(** A JavaScript [Set] of strings: its elements in insertion order. *)
Definition JsSet : Type := list string.

Definition Set_has (s : JsSet) (x : string) : bool := existsb (String.eqb x) s.

(** [new Set([...s, x])] *)
Definition Set_add (s : JsSet) (x : string) : JsSet :=
  if Set_has s x then s else s ++ [x].

(** The component state the schedule depends on. *)
Record RestockState : Type := mkRestockState {
  cancelled : JsSet;
  quantityOverride : JsMap (option Z);
  approvedRestocks : JsSet
}.

(** [setQty]:
    [const n = parseInt(val, 10);
     setQuantityOverride((o) => ({ ...o,
       [asin]: Number.isFinite(n) && n > 0 ? n : undefined }));] *)
Definition setQty (st : RestockState) (asin val : string) : RestockState :=
  let n := parseInt val in
  {| cancelled := cancelled st;
     quantityOverride :=
       Map_set (quantityOverride st) asin
         match n with
         | Some n => if (0 <? n)%Z then Some n else None
         | None => None
         end;
     approvedRestocks := approvedRestocks st |}.

(** [handleCancel]: [setCancelled((s) => new Set([...s, asin]))] *)
Definition handleCancel (st : RestockState) (asin : string) : RestockState :=
  {| cancelled := Set_add (cancelled st) asin;
     quantityOverride := quantityOverride st;
     approvedRestocks := approvedRestocks st |}.

(** [handleApprove]: [setApproved((s) => new Set([...s, asin]))] *)
Definition handleApprove (st : RestockState) (asin : string) : RestockState :=
  {| cancelled := cancelled st;
     quantityOverride := quantityOverride st;
     approvedRestocks := Set_add (approvedRestocks st) asin |}.

(** [(inventory.products || []).forEach((p) =>
       { priceByAsin[p.asin] = Number(p.list_price) || 0; });]
    on products given by id and list price.  Assigning a number to
    [__proto__] changes nothing. *)
Definition priceByAsinOf (products : list (string * Q)) : JsMap Q :=
  fold_left
    (fun priceByAsin p =>
       if String.eqb (fst p) "__proto__" then priceByAsin
       else Map_set priceByAsin (fst p) (if Qeq_bool (snd p) 0 then 0 else snd p))
    products [].

(** [a * b] where [None] stands for a value that is not a number. *)
Definition mulNum (a b : option Q) : option Q :=
  match a, b with
  | Some x, Some y => Some (x * y)
  | _, _ => None
  end.

(** An entry of [restockItems]: the product, its quantity, unit price and
    line total (the text [buyWhen] is left out).  [None] is a value that is
    not a number: a member of the prototype found under the product id,
    and [NaN] for the line total. *)
Record RestockItem : Type := mkRestockItem {
  ri_product : RestockCandidate;
  restockQty : option Q;
  unitPrice : option Q;
  restockLineTotal : option Q
}.

(** The callback of [.map((p) => ...)]:
    [const qty = quantityOverride[p.asin] ?? p.reorder_qty ?? 1;
     const unitPrice = priceByAsin[p.asin] || 0;] *)
Definition restockItemOf (st : RestockState) (priceByAsin : JsMap Q) (p : RestockCandidate)
  : RestockItem :=
  let reorderQty := match rc_reorder_qty p with Some q => q | None => 1 end in
  let qty :=
    match Map_get (quantityOverride st) (rc_asin p) with
    | Some (Some n) => Some (inject_Z n)
    | Some None => Some reorderQty
    | None => if inherited (rc_asin p) then None else Some reorderQty
    end in
  let unitPrice :=
    match Map_get priceByAsin (rc_asin p) with
    | Some x => Some (if Qeq_bool x 0 then 0 else x)
    | None => if inherited (rc_asin p) then None else Some 0
    end in
  {| ri_product := p; restockQty := qty; unitPrice := unitPrice;
     restockLineTotal := mulNum qty unitPrice |}.

(** [(forecast.products || [])
       .filter((p) => p.days_until_reorder != null && !cancelled.has(p.asin))
       .map((p) => ...)] *)
Definition restockItems (st : RestockState) (priceByAsin : JsMap Q)
  (products : list RestockCandidate) : list RestockItem :=
  map (restockItemOf st priceByAsin)
    (filter (fun p =>
               match rc_days_until_reorder p with Some _ => true | None => false end
               && negb (Set_has (cancelled st) (rc_asin p)))
       products).

(** What the user can do to the schedule. *)
Inductive RestockAction : Type :=
| DoSetQty (asin val : string)
| DoCancel (asin : string)
| DoApprove (asin : string).

Definition restockStep (st : RestockState) (a : RestockAction) : RestockState :=
  match a with
  | DoSetQty asin val => setQty st asin val
  | DoCancel asin => handleCancel st asin
  | DoApprove asin => handleApprove st asin
  end.

Definition restockRun (st : RestockState) (actions : list RestockAction) : RestockState :=
  fold_left restockStep actions st.

(* ================================================================== *)
(** ** The inventory file: parseCSV and getLatestInventorySnapshot *)

(** [s.split(sep)] for a one-character separator. *)
Fixpoint splitOn (sep : ascii) (s : string) : list string :=
  match s with
  | EmptyString => [EmptyString]
  | String c r =>
      if Ascii.eqb c sep then EmptyString :: splitOn sep r
      else
        match splitOn sep r with
        | h :: t => String c h :: t
        | [] => [String c EmptyString]
        end
  end.

(** The line feed character. *)
Definition newline : ascii := ascii_of_nat 10.

(** [values[j]?.trim() ?? ''] *)
Definition csvCell (values : list string) (j : nat) : string :=
  match nth_error values j with
  | Some v => trim v
  | None => EmptyString
  end.

(** [header.forEach((h, j) => { row[h.trim()] = values[j]?.trim() ?? ''; })],
    from column [j] on.  Assigning a string to [__proto__] changes nothing. *)
Fixpoint csvFill (values : list string) (header : list string) (j : nat)
  (row : JsMap string) : JsMap string :=
  match header with
  | [] => row
  | h :: header' =>
      csvFill values header' (S j)
        (if String.eqb (trim h) "__proto__" then row
         else Map_set row (trim h) (csvCell values j))
  end.

(** The body of the loop over the lines after the header. *)
Definition csvRow (header : list string) (line : string) : JsMap string :=
  csvFill (splitOn "," line) header 0 [].

(** parseCSV *)
Definition parseCSV (text : string) : list (JsMap string) :=
  let lines := splitOn newline (trim text) in
  let header := splitOn "," (hd EmptyString lines) in
  map (csvRow header) (tl lines).

(** A product of the snapshot: [{ ...r, quantity_on_hand, list_price }]. *)
Record SnapshotProduct : Type := mkSnapshotProduct {
  snap_row : JsMap string;
  snap_quantity_on_hand : Z;
  snap_list_price : jsnum
}.

(** A property name: [undefined] used as a key reads "undefined". *)
Definition keyOf (x : option string) : string :=
  match x with
  | Some s => s
  | None => "undefined"
  end.

(** [a > b] on values that are strings or [undefined]: strings compare
    character by character, and nothing is greater or smaller than
    [undefined]. *)
Definition gtStr (a b : option string) : bool :=
  match a, b with
  | Some x, Some y => String.ltb y x
  | _, _ => false
  end.

Definition rowDate (r : JsMap string) : option string := Map_get r "date".

(** [{ ...r, quantity_on_hand: parseInt(r.quantity_on_hand, 10) || 0,
       list_price: parseFloat(r.list_price) || 0 }] *)
Definition snapshotOf (r : JsMap string) : SnapshotProduct :=
  {| snap_row := r;
     snap_quantity_on_hand := intParamOr (Map_get r "quantity_on_hand") 0;
     snap_list_price :=
       match Map_get r "list_price" with
       | Some s => orNum (parseFloat s) 0
       | None => JFin 0
       end |}.

(** The loop of getLatestInventorySnapshot:
    [if (!byAsin[asin] || date > byAsin[asin].date) byAsin[asin] = { ... };]
    Under an inherited name [byAsin[asin]] is a member of the prototype:
    it is truthy and has no [date], so the row is passed over. *)
Definition snapshotStep (byAsin : JsMap SnapshotProduct) (r : JsMap string)
  : JsMap SnapshotProduct :=
  let asin := Map_get r "asin" in
  let date := rowDate r in
  match Map_get byAsin (keyOf asin) with
  | None =>
      if inherited (keyOf asin) then byAsin
      else Map_set byAsin (keyOf asin) (snapshotOf r)
  | Some kept =>
      if gtStr date (rowDate (snap_row kept))
      then Map_set byAsin (keyOf asin) (snapshotOf r)
      else byAsin
  end.

Definition latestByAsin (rows : list (JsMap string)) : JsMap SnapshotProduct :=
  fold_left snapshotStep rows [].

(** [products.reduce((max, p) => (p.date > max ? p.date : max), '')] *)
Definition latestDate (products : list SnapshotProduct) : string :=
  fold_left
    (fun max p =>
       match rowDate (snap_row p) with
       | Some d => if String.ltb max d then d else max
       | None => max
       end)
    products EmptyString.

(** getLatestInventorySnapshot on the parsed rows: [{ snapshotDate, products }].
    The products are listed in the order their ids were first seen
    ([Object.values] moves ids that are array indices to the front, which
    changes the order and nothing else). *)
Definition getLatestInventorySnapshot (rows : list (JsMap string))
  : string * list SnapshotProduct :=
  let products := Map_values (latestByAsin rows) in
  (latestDate products, products).

(** The number of occurrences of a character in a string. *)
Fixpoint countChar (c : ascii) (s : string) : nat :=
  match s with
  | EmptyString => O
  | String x r => (if Ascii.eqb x c then 1 else 0) + countChar c r
  end.

(** A small inventory file: a header and three lines. *)
Definition inventory_csv : string :=
  ("asin, date ,quantity_on_hand,list_price" ++ String newline "A1,2024-01-01, 5 ,9.99"
   ++ String newline "A1,2024-01-03,3,9.99" ++ String newline "B2,2024-01-02,x"
   ++ String newline EmptyString)%string.

(** What the loop of getLatestInventorySnapshot maintains. *)
Definition snapshot_inv (seen : list (JsMap string)) (m : JsMap SnapshotProduct) : Prop :=
  NoDup (map fst m)
  /\ (forall k p, Map_get m k = Some p ->
        k = keyOf (Map_get (snap_row p) "asin")
        /\ p = snapshotOf (snap_row p) /\ In (snap_row p) seen)
  /\ (forall r, In r seen -> inherited (keyOf (Map_get r "asin")) = false ->
        exists p, Map_get m (keyOf (Map_get r "asin")) = Some p
                  /\ gtStr (rowDate r) (rowDate (snap_row p)) = false)
  /\ (forall k, In k (map fst m) -> inherited k = false).

(* ================================================================== *)
(** ** Rounding *)









(* ================================================================== *)
(** ** Demand Estimator *)




(* ================================================================== *)
(** ** Forecaster *)

Lemma holtLoop_fold (alpha beta : Q) (rest : list Q) :
  forall (pre : list Q) (L b : Q),
    holtLoop (pre ++ rest) alpha beta (List.length rest) (List.length pre) L b
    = fold_left (holt_update alpha beta) rest (L, b).
Proof.
  induction rest as [|x rest IH]; intros pre L b; simpl; [reflexivity|].
  rewrite nth_middle.
  replace (pre ++ x :: rest) with ((pre ++ [x]) ++ rest) by (rewrite <- app_assoc; reflexivity).
  replace (S (List.length pre)) with (List.length (pre ++ [x]))
    by (rewrite length_app; simpl; lia).
  apply IH.
Qed.

Lemma forecastLoop_map (L b : Q) (n : nat) :
  forall s : nat,
    forecastLoop L b n (Z.of_nat s)
    = map (fun i => holt_step (L, b) (Z.of_nat i)) (seq s n).
Proof.
  induction n as [|n IH]; intros s; simpl; [reflexivity|].
  f_equal. replace (Z.of_nat s + 1)%Z with (Z.of_nat (S s)) by lia. apply IH.
Qed.

Lemma holt_loop_state (alpha beta x0 : Q) (rest : list Q) :
  holtLoop (x0 :: rest) alpha beta (List.length (x0 :: rest) - 1) 1 x0
    (if (1 <? List.length (x0 :: rest))%nat
     then nth 1 (x0 :: rest) 0 - nth 0 (x0 :: rest) 0 else 0)
  = holt_state alpha beta (x0 :: rest).
Proof.
  unfold holt_state. simpl tl.
  replace (List.length (x0 :: rest) - 1)%nat with (List.length rest) by (simpl; lia).
  change (x0 :: rest) with ([x0] ++ rest) at 1.
  change 1%nat with (List.length [x0]) at 1.
  rewrite holtLoop_fold. f_equal.
  destruct rest as [|x1 rest]; reflexivity.
Qed.

Lemma holtForecast_eq_reference (series : list Q) (alpha beta : Q) (horizon : Z) :
  holtForecast series alpha beta horizon = holt_reference series alpha beta horizon.
Proof.
  destruct series as [|x0 rest]; [reflexivity|].
  unfold holtForecast, holt_reference.
  rewrite holt_loop_state.
  destruct (holt_state alpha beta (x0 :: rest)) as [L b]. simpl fst; simpl snd.
  f_equal. apply (forecastLoop_map L b (Z.to_nat horizon) 1).
Qed.




Example holtForecast_example :
  forecast (holtForecast [10; 8; 6; 4] (3 # 10) (1 # 10) 3) = [2; 0; 0]%Z.
Proof. reflexivity. Qed.

(* ================================================================== *)
(** ** Reorder projection *)

Lemma Qlt_bool_iff (a b : Q) : Qlt_bool a b = true <-> a < b.
Proof.
  unfold Qlt_bool. rewrite negb_true_iff.
  split; intros H.
  - apply Qnot_le_lt. intros Hle. apply Qle_bool_iff in Hle. congruence.
  - destruct (Qle_bool b a) eqn:E; [|reflexivity].
    apply Qle_bool_iff in E. exfalso. apply (Qlt_not_le _ _ H E).
Qed.


Lemma findIndexFrom_spec {A : Type} (p : A -> bool) (l : list A) :
  forall s : Z,
    (findIndexFrom p l s = (-1)%Z /\ forall x, In x l -> p x = false)
    \/ (exists i, findIndexFrom p l s = (s + Z.of_nat i)%Z /\ first_hit p l i).
Proof.
  induction l as [|x l IH]; intros s; simpl.
  - left. split; [reflexivity|]. intros x [].
  - destruct (p x) eqn:Hx.
    + right. exists O. split; [lia|]. split.
      * exists x. split; [reflexivity|exact Hx].
      * intros j y Hj. lia.
    + destruct (IH (s + 1)%Z) as [[Hn Hall]|[i [Hi [[y [Hy Hp]] Hleast]]]].
      * left. split; [exact Hn|]. intros z [<-|Hz]; [exact Hx|apply Hall, Hz].
      * right. exists (S i). split; [lia|]. split.
        -- exists y. split; [exact Hy|exact Hp].
        -- intros [|j] z Hj Hz; simpl in Hz.
           ++ congruence.
           ++ apply (Hleast j z); [lia|exact Hz].
Qed.

Lemma first_hit_unique {A : Type} (p : A -> bool) (l : list A) (i j : nat) :
  first_hit p l i -> first_hit p l j -> i = j.
Proof.
  intros [[x [Hx Hpx]] Hi] [[y [Hy Hpy]] Hj].
  destruct (Nat.lt_trichotomy i j) as [H|[H|H]]; [|exact H|].
  - specialize (Hj i x H Hx). congruence.
  - specialize (Hi j y H Hy). congruence.
Qed.

(** C5.  days_until_reorder is defined exactly when reorder_point > 0,
    trend < 0 and some forecast entry is at most reorder_point; when
    defined it is the least such index plus 1, and otherwise it is none. *)
Theorem daysUntilReorder_first_crossing (reorderPoint trend : Q) (forecast : list Z) :
  let crosses := fun f : Z => Qle_bool (inject_Z f) reorderPoint in
  ((exists d, daysUntilReorder reorderPoint trend forecast = Some d)
   <-> (0 < reorderPoint /\ trend < 0
        /\ exists i f, nth_error forecast i = Some f /\ inject_Z f <= reorderPoint))
  /\ (forall d : Z,
        daysUntilReorder reorderPoint trend forecast = Some d
        <-> (0 < reorderPoint /\ trend < 0
             /\ exists i : nat, d = (Z.of_nat i + 1)%Z /\ first_hit crosses forecast i))
  /\ (daysUntilReorder reorderPoint trend forecast = None
      <-> ~ (0 < reorderPoint /\ trend < 0
             /\ exists i f, nth_error forecast i = Some f /\ inject_Z f <= reorderPoint)).
Proof.
  intros crosses.
  assert (Hd : forall d : Z,
        daysUntilReorder reorderPoint trend forecast = Some d
        <-> (0 < reorderPoint /\ trend < 0
             /\ exists i : nat, d = (Z.of_nat i + 1)%Z /\ first_hit crosses forecast i)).
  { intros d. unfold daysUntilReorder, findIndex. fold crosses.
    destruct (Qlt_bool 0 reorderPoint) eqn:Hr; simpl.
    2:{ split; [discriminate|]. intros [H _]. apply Qlt_bool_iff in H. congruence. }
    destruct (Qlt_bool trend 0) eqn:Ht; simpl.
    2:{ split; [discriminate|]. intros [_ [H _]]. apply Qlt_bool_iff in H. congruence. }
    apply Qlt_bool_iff in Hr. apply Qlt_bool_iff in Ht.
    destruct (findIndexFrom_spec crosses forecast 0) as [[Hn Hall]|[i [Hi Hfirst]]].
    - rewrite Hn. simpl. split; [discriminate|].
      intros [_ [_ [i [_ [[x [Hx Hp]] _]]]]].
      apply nth_error_In in Hx. rewrite (Hall x Hx) in Hp. discriminate.
    - rewrite Hi. replace (0 <=? 0 + Z.of_nat i)%Z with true by (symmetry; apply Z.leb_le; lia).
      split.
      + intros [= <-]. repeat split; auto. exists i. split; [lia|exact Hfirst].
      + intros [_ [_ [j [-> Hj]]]]. rewrite (first_hit_unique Hfirst Hj). f_equal. }
  assert (He : (exists d, daysUntilReorder reorderPoint trend forecast = Some d)
   <-> (0 < reorderPoint /\ trend < 0
        /\ exists i f, nth_error forecast i = Some f /\ inject_Z f <= reorderPoint)).
  { split.
    - intros [d H]. apply Hd in H. destruct H as [Hr [Ht [i [_ [[x [Hx Hp]] _]]]]].
      repeat split; auto. exists i, x. split; [exact Hx|]. apply Qle_bool_iff, Hp.
    - intros [Hr [Ht [i [f [Hf Hle]]]]].
      destruct (findIndexFrom_spec crosses forecast 0) as [[Hn Hall]|[j [Hj Hfirst]]].
      + apply nth_error_In in Hf. specialize (Hall f Hf). unfold crosses in Hall.
        apply Qle_bool_iff in Hle. congruence.
      + exists (Z.of_nat j + 1)%Z. apply Hd. repeat split; auto. exists j. split; [reflexivity|exact Hfirst]. }
  split; [exact He|]. split; [exact Hd|].
  rewrite <- He. destruct (daysUntilReorder reorderPoint trend forecast) as [d|].
  - split; [discriminate|]. intros H. exfalso. apply H. exists d. reflexivity.
  - split; [|reflexivity]. intros _ [d H]. discriminate.
Qed.

(** The design document's example: the forecast 2, 0, 0 of the series
    10, 8, 6, 4 with reorder point 5 crosses on day 1. *)
Lemma daysUntilReorder_first_crossing_witness :
  daysUntilReorder 5 (-2 # 1) [2; 0; 0]%Z = Some 1%Z.
Proof.
  apply (proj1 (proj2 (daysUntilReorder_first_crossing 5 (-2 # 1) [2; 0; 0]%Z)) 1%Z).
  split; [reflexivity|]. split; [reflexivity|].
  exists O. split; [reflexivity|]. split.
  - exists 2%Z. split; reflexivity.
  - intros j y Hj. lia.
Defined.

(* ================================================================== *)
(** ** Query Planner *)


Lemma trimEnd_idem (s : string) : trimEnd (trimEnd s) = trimEnd s.
Proof.
  induction s as [|c r IH]; simpl; [reflexivity|].
  destruct (isWhite c && negb (truthy (trimEnd r))) eqn:E; simpl; [reflexivity|].
  rewrite IH, E. reflexivity.
Qed.

Lemma trimStart_head (s : string) :
  trimStart s = EmptyString
  \/ exists c r, trimStart s = String c r /\ isWhite c = false.
Proof.
  induction s as [|c r IH]; simpl; [left; reflexivity|].
  destruct (isWhite c) eqn:E; [exact IH|].
  right. exists c, r. split; [reflexivity|exact E].
Qed.

Lemma trim_idem (s : string) : trim (trim s) = trim s.
Proof.
  unfold trim.
  destruct (trimStart_head s) as [-> | [c [r [-> Hc]]]]; [reflexivity|].
  simpl. rewrite Hc. simpl. rewrite Hc. simpl. rewrite Hc. simpl.
  rewrite trimEnd_idem. reflexivity.
Qed.

Lemma queriesOfParsed_clean (p : JsonQueries) :
  Forall (fun q => truthy q = true /\ trimmed q) (queriesOfParsed p).
Proof.
  unfold queriesOfParsed. apply Forall_forall. intros q Hq.
  apply filter_In in Hq as [Hin Ht]. split; [exact Ht|].
  apply in_map_iff in Hin as [q0 [<- _]]. apply trim_idem.
Qed.

Lemma forecastDemand_names (l : list ParsedItem) (h : Q) :
  map (fun i => pi_name (fi_item i)) (forecastDemand l h) = map pi_name l.
Proof.
  unfold forecastDemand. rewrite map_map. reflexivity.
Qed.

Lemma forecastedItemsOf_names (parseReply : capability (list ParsedItem)) (h : Q) :
  Forall (fun i => truthy (pi_name (fi_item i)) = true)
    (forecastedItemsOf (callGrokParseItems parseReply) h).
Proof.
  destruct parseReply as [l|]; simpl; [|constructor].
  set (kept := filter _ l).
  assert (Hk : Forall (fun i => truthy (pi_name i) = true) kept).
  { apply Forall_forall. intros i Hi. apply filter_In in Hi as [_ Hi].
    apply andb_true_iff in Hi as [Hi _]. exact Hi. }
  destruct kept as [|i kept']; [constructor|].
  unfold forecastDemand. apply Forall_map. exact Hk.
Qed.


(** C8, as stated, fails: the capability path passes on more than five
    queries, and the raw-request fallback passes the request on untrimmed. *)
Lemma queryPlanner_not_capped_nor_trimmed :
  List.length (queryPlanner (Some six_queries) None 30 "cables"%string) = 6%nat
  /\ queryPlanner None None 30 " usb cable "%string = [" usb cable "%string]
  /\ ~ (forall (queriesReply : capability JsonQueries)
               (parseReply : capability (list ParsedItem)) (h : Q) (prompt : string),
          (1 <= List.length (queryPlanner queriesReply parseReply h prompt) <= 5)%nat
          /\ Forall (fun q => truthy q = true /\ trimmed q)
               (queryPlanner queriesReply parseReply h prompt)).
Proof.
  split; [reflexivity|]. split; [reflexivity|].
  intros H. destruct (H (Some six_queries) None 30 "cables"%string) as [[_ H5] _].
  vm_compute in H5. lia.
Qed.

(** C8, amended.  The Query Planner produces at least one query string and
    every query is non-empty, on the capability path and on every fallback
    path; on the capability path every query is also trimmed; the
    raw-request fallback produces exactly one query, the request as given
    (or the default when it is empty).  No upper bound of five is imposed. *)
Theorem queryPlanner_nonempty (queriesReply : capability JsonQueries)
  (parseReply : capability (list ParsedItem)) (forecastHorizon : Q) (prompt : string) :
  let planned := queryPlanner queriesReply parseReply forecastHorizon prompt in
  (1 <= List.length planned)%nat
  /\ Forall (fun q => truthy q = true) planned
  /\ (forall q0 qs, callGrokForSearchQueries queriesReply = Some (q0 :: qs) ->
        planned = q0 :: qs /\ Forall trimmed planned)
  /\ ((callGrokForSearchQueries queriesReply = None
       \/ callGrokForSearchQueries queriesReply = Some []) ->
      forecastedItemsOf (callGrokParseItems parseReply) forecastHorizon = [] ->
      planned = [orStr prompt "product"]).
Proof.
  intros planned. subst planned. unfold queryPlanner.
  pose proof (forecastedItemsOf_names parseReply forecastHorizon) as Hnames.
  set (fis := forecastedItemsOf (callGrokParseItems parseReply) forecastHorizon) in *.
  assert (Hfb : forall d : list string,
            d = match fis with
                | _ :: _ => map (fun i => pi_name (fi_item i)) fis
                | [] => filter truthy [orStr prompt "product"]
                end ->
            (1 <= List.length d)%nat /\ Forall (fun q => truthy q = true) d
            /\ (fis = [] -> d = [orStr prompt "product"])).
  { intros d ->. destruct fis as [|f fis'].
    - assert (Ht : truthy (orStr prompt "product") = true)
        by (unfold orStr; destruct (truthy prompt) eqn:E; [exact E|reflexivity]).
      simpl. rewrite Ht. simpl. repeat split; auto.
    - repeat split; [simpl; lia| |discriminate].
      apply Forall_map. exact Hnames. }
  destruct queriesReply as [p|]; simpl.
  - pose proof (queriesOfParsed_clean p) as Hclean.
    destruct (queriesOfParsed p) as [|q0 qs] eqn:Hq.
    + destruct (Hfb _ eq_refl) as [H1 [H2 H3]].
      split; [exact H1|]. split; [exact H2|]. split; [discriminate|].
      intros _. exact H3.
    + assert (Htr : Forall trimmed (q0 :: qs))
        by (eapply Forall_impl; [|exact Hclean]; simpl; tauto).
      split; [simpl; lia|].
      split; [eapply Forall_impl; [|exact Hclean]; simpl; tauto|].
      split.
      * intros q1 qs1 [= <- <-]. split; [reflexivity|exact Htr].
      * intros [H|H]; discriminate.
  - destruct (Hfb _ eq_refl) as [H1 [H2 H3]].
    split; [exact H1|]. split; [exact H2|]. split; [discriminate|].
    intros _. exact H3.
Qed.

Lemma queryPlanner_nonempty_witness :
  queryPlanner (Some (QSingle "  headphones "%string)) None 30 "I need headphones"%string
  = ["headphones"%string]
  /\ Forall trimmed
       (queryPlanner (Some (QSingle "  headphones "%string)) None 30 "I need headphones"%string).
Proof.
  apply (proj1 (proj2 (proj2 (queryPlanner_nonempty
           (Some (QSingle "  headphones "%string)) None 30 "I need headphones"%string)))
         "headphones"%string []).
  reflexivity.
Defined.

(* ================================================================== *)
(** ** Search Dispatcher: the search loop *)




Lemma searchStep_fields (st : Dispatch) (q : string) (data : SearchResponse) :
  allResults (searchStep st (q, data)) = allResults st ++ resultsOf data
  /\ usedQueries (searchStep st (q, data))
     = usedQueries st ++ (if answered data then [q] else [])
  /\ unfoundQueries (searchStep st (q, data))
     = unfoundQueries st ++ (if noResults data then [q] else []).
Proof.
  destruct data as [|[[|r rs]|]]; simpl; rewrite ?app_nil_r; auto.
Qed.

Lemma searchLoop_from (calls : list (string * SearchResponse)) :
  forall st : Dispatch,
    let d := fold_left searchStep calls st in
    allResults d = allResults st ++ flat_map (fun c => resultsOf (snd c)) calls
    /\ usedQueries d
       = usedQueries st ++ map fst (filter (fun c => answered (snd c)) calls)
    /\ unfoundQueries d
       = unfoundQueries st ++ map fst (filter (fun c => noResults (snd c)) calls).
Proof.
  induction calls as [|[q data] calls IH]; intros st; cbv zeta.
  - simpl. rewrite !app_nil_r. auto.
  - change (fold_left searchStep ((q, data) :: calls) st)
      with (fold_left searchStep calls (searchStep st (q, data))).
    destruct (IH (searchStep st (q, data))) as [Ha [Hu Hn]].
    destruct (searchStep_fields st q data) as [Ea [Eu En]].
    rewrite Ha, Hu, Hn, Ea, Eu, En, <- !app_assoc. cbn [flat_map filter snd fst].
    repeat split.
    + destruct (answered data); reflexivity.
    + destruct (noResults data); reflexivity.
Qed.

Lemma searchLoop_closed (calls : list (string * SearchResponse)) :
  allResults (searchLoop calls) = flat_map (fun c => resultsOf (snd c)) calls
  /\ usedQueries (searchLoop calls) = map fst (filter (fun c => answered (snd c)) calls)
  /\ unfoundQueries (searchLoop calls) = map fst (filter (fun c => noResults (snd c)) calls).
Proof.
  exact (searchLoop_from calls {| allResults := []; usedQueries := []; unfoundQueries := [] |}).
Qed.

(** C7, as stated, fails: a query whose call fails is left out of the
    queries-run list, one whose call returns no result is kept in it. *)
Lemma searchLoop_attribution_differs :
  usedQueries (searchLoop [("a"%string, SearchFailed)]) = []
  /\ usedQueries (searchLoop [("a"%string, SearchData (Some []))]) = ["a"%string]
  /\ ~ (forall (pre post : list (string * SearchResponse)) (q : string),
          searchLoop (pre ++ (q, SearchFailed) :: post)
          = searchLoop (pre ++ (q, SearchData (Some [])) :: post)).
Proof.
  split; [reflexivity|]. split; [reflexivity|].
  intros H. specialize (H [] [] "a"%string). discriminate H.
Qed.

(** C7, amended.  A catalog call that fails on a query and one that returns
    zero results for it classify the query as unfound alike, leave the
    combined pool (hence the merged pool) alike, and the remaining queries
    are dispatched alike, each query being called once; only the
    queries-run list differs: it keeps a zero-result query and omits a
    failed one. *)
Theorem searchLoop_failure_as_zero_results
  (pre post : list (string * SearchResponse)) (q : string)
  (zero : option (list SearchResult)) :
  zero = None \/ zero = Some [] ->
  let failed := searchLoop (pre ++ (q, SearchFailed) :: post) in
  let empty := searchLoop (pre ++ (q, SearchData zero) :: post) in
  unfoundQueries failed = unfoundQueries empty
  /\ unfoundQueries failed
     = unfoundQueries (searchLoop pre) ++ q
         :: map fst (filter (fun c => noResults (snd c)) post)
  /\ allResults failed = allResults empty
  /\ mergeSearchResults (allResults failed) = mergeSearchResults (allResults empty)
  /\ allResults failed
     = allResults (searchLoop pre) ++ flat_map (fun c => resultsOf (snd c)) post
  /\ usedQueries failed
     = usedQueries (searchLoop pre) ++ map fst (filter (fun c => answered (snd c)) post)
  /\ usedQueries empty
     = usedQueries (searchLoop pre) ++ q
         :: map fst (filter (fun c => answered (snd c)) post).
Proof.
  intros Hz failed empty. subst failed empty.
  destruct (searchLoop_closed (pre ++ (q, SearchFailed) :: post)) as [Fa [Fu Fn]].
  destruct (searchLoop_closed (pre ++ (q, SearchData zero) :: post)) as [Ea [Eu En]].
  destruct (searchLoop_closed pre) as [Pa [Pu Pn]].
  rewrite Fa, Fu, Fn, Ea, Eu, En, Pa, Pu, Pn.
  rewrite !flat_map_app, !filter_app, !map_app. simpl.
  destruct Hz as [-> | ->]; simpl; repeat split; reflexivity.
Qed.

Lemma searchLoop_failure_as_zero_results_witness :
  unfoundQueries (searchLoop [("a"%string, SearchData (Some [result_of "A1" 10]));
                              ("b"%string, SearchFailed);
                              ("c"%string, SearchData (Some [result_of "C3" 4]))])
  = unfoundQueries (searchLoop [("a"%string, SearchData (Some [result_of "A1" 10]));
                                ("b"%string, SearchData (Some []));
                                ("c"%string, SearchData (Some [result_of "C3" 4]))]).
Proof.
  apply (searchLoop_failure_as_zero_results
           [("a"%string, SearchData (Some [result_of "A1" 10]))]
           [("c"%string, SearchData (Some [result_of "C3" 4]))] "b"%string
           (zero := Some [])).
  right. reflexivity.
Defined.

(* ================================================================== *)
(** ** Search Dispatcher: the merge *)

Section MapFacts.

Variable V : Type.

Lemma Map_has_In (m : JsMap V) (k : string) :
  Map_has m k = true <-> In k (map fst m).
Proof.
  unfold Map_has. rewrite existsb_exists. split.
  - intros [[k' v] [Hin Heq]]. simpl in Heq. apply String.eqb_eq in Heq. subst k'.
    apply in_map_iff. exists (k, v). split; [reflexivity|exact Hin].
  - intros Hin. apply in_map_iff in Hin as [[k' v] [Hk Hin]]. simpl in Hk. subst k'.
    exists (k, v). split; [exact Hin|]. simpl. apply String.eqb_refl.
Qed.

Lemma Map_set_fresh (m : JsMap V) (k : string) (v : V) :
  Map_has m k = false -> Map_set m k v = m ++ [(k, v)].
Proof.
  induction m as [|[k' v'] m IH]; intros H; simpl; [reflexivity|].
  unfold Map_has in H. simpl in H. apply orb_false_iff in H as [Hk Hm].
  rewrite Hk. f_equal. apply IH. exact Hm.
Qed.

End MapFacts.


Lemma keyed_keys (m : JsMap SearchResult) :
  keyed m -> map fst m = map asin (Map_values m).
Proof.
  unfold Map_values. induction 1 as [|[k v] m Hk _ IH]; simpl; [reflexivity|].
  simpl in Hk. rewrite Hk, IH. reflexivity.
Qed.

Lemma mergeStep_keyed (m : JsMap SearchResult) (r : SearchResult) :
  keyed m -> keyed (mergeStep m r).
Proof.
  intros Hm. unfold mergeStep.
  destruct (truthy (asin r)); simpl; [|exact Hm].
  destruct (Map_has m (asin r)) eqn:Hh; simpl; [exact Hm|].
  rewrite Map_set_fresh by exact Hh.
  apply Forall_app. split; [exact Hm|]. constructor; [reflexivity|constructor].
Qed.

Lemma merge_fold_keyed (l : list SearchResult) :
  forall m, keyed m -> keyed (fold_left mergeStep l m).
Proof.
  induction l as [|r l IH]; intros m Hm; simpl; [exact Hm|].
  apply IH, mergeStep_keyed, Hm.
Qed.

Lemma existsb_eqb_In (a : string) (l : list string) :
  existsb (String.eqb a) l = true <-> In a l.
Proof.
  rewrite existsb_exists. split.
  - intros [b [Hb Heq]]. apply String.eqb_eq in Heq. subst b. exact Hb.
  - intros H. exists a. split; [exact H|apply String.eqb_refl].
Qed.

(** What one more result does to the merged pool. *)
Lemma merge_snoc (l : list SearchResult) (r : SearchResult) :
  mergeSearchResults (l ++ [r])
  = if truthy (asin r) && negb (existsb (String.eqb (asin r)) (map asin (mergeSearchResults l)))
    then mergeSearchResults l ++ [r] else mergeSearchResults l.
Proof.
  unfold mergeSearchResults. rewrite fold_left_app. simpl.
  set (m := fold_left mergeStep l []).
  assert (Hm : keyed m) by (apply merge_fold_keyed; constructor).
  assert (Hhas : Map_has m (asin r)
                 = existsb (String.eqb (asin r)) (map asin (Map_values m))).
  { rewrite <- keyed_keys by exact Hm. apply eq_iff_eq_true.
    rewrite Map_has_In, existsb_eqb_In. reflexivity. }
  unfold mergeStep. rewrite <- Hhas.
  destruct (truthy (asin r)); simpl; [|reflexivity].
  destruct (Map_has m (asin r)) eqn:Hh; simpl; [reflexivity|].
  rewrite Map_set_fresh by exact Hh. unfold Map_values. rewrite map_app. reflexivity.
Qed.

(** The ids of the merged pool are the non-empty ids of the input. *)
Lemma merge_ids (l : list SearchResult) (a : string) :
  In a (map asin (mergeSearchResults l)) <-> truthy a = true /\ In a (map asin l).
Proof.
  induction l as [|r l IH] using rev_ind.
  - simpl. tauto.
  - rewrite merge_snoc, map_app, in_app_iff. simpl.
    destruct (truthy (asin r)) eqn:Ht; simpl.
    + destruct (existsb (String.eqb (asin r)) (map asin (mergeSearchResults l))) eqn:He; simpl.
      * apply existsb_eqb_In in He. rewrite IH. split; [tauto|].
        intros [Ha [H|[H|[]]]]; [tauto|]. subst a. apply IH, He.
      * rewrite map_app, in_app_iff. simpl. rewrite IH. split.
        -- intros [[Ha H]|[H|[]]]; [tauto|]. subst a. tauto.
        -- tauto.
    + rewrite IH. split; [tauto|]. intros [Ha [H|[H|[]]]]; [tauto|]. subst a. congruence.
Qed.

Lemma merge_NoDup (l : list SearchResult) : NoDup (map asin (mergeSearchResults l)).
Proof.
  induction l as [|r l IH] using rev_ind; [constructor|].
  rewrite merge_snoc.
  destruct (truthy (asin r)); simpl; [|exact IH].
  destruct (existsb (String.eqb (asin r)) (map asin (mergeSearchResults l))) eqn:He;
    simpl; [exact IH|].
  rewrite map_app. simpl. apply NoDup_app; [exact IH|repeat constructor; intros []|].
  intros a Ha [<-|[]]. apply existsb_eqb_In in Ha. congruence.
Qed.

Lemma first_occurrences_ext (l : list SearchResult) :
  forall s1 s2 : list string,
    (forall a, In a s1 <-> In a s2) ->
    first_occurrences s1 l = first_occurrences s2 l.
Proof.
  induction l as [|r l IH]; intros s1 s2 H; simpl; [reflexivity|].
  assert (He : existsb (String.eqb (asin r)) s1 = existsb (String.eqb (asin r)) s2).
  { apply eq_iff_eq_true. rewrite !existsb_eqb_In. apply H. }
  rewrite He. destruct (existsb (String.eqb (asin r)) s2).
  - apply IH, H.
  - f_equal. apply IH. intros a. simpl. rewrite H. reflexivity.
Qed.

Lemma merge_fold_first_occurrences (l : list SearchResult) :
  forall m : JsMap SearchResult,
    keyed m ->
    Map_values (fold_left mergeStep l m)
    = Map_values m
      ++ first_occurrences (map fst m) (filter (fun r => truthy (asin r)) l).
Proof.
  induction l as [|r l IH]; intros m Hm; simpl.
  - rewrite app_nil_r. reflexivity.
  - rewrite IH by (apply mergeStep_keyed, Hm).
    unfold mergeStep.
    assert (Hhas : Map_has m (asin r) = existsb (String.eqb (asin r)) (map fst m)).
    { apply eq_iff_eq_true. rewrite Map_has_In, existsb_eqb_In. reflexivity. }
    destruct (truthy (asin r)); simpl; [|reflexivity].
    rewrite <- Hhas.
    destruct (Map_has m (asin r)) eqn:Hh; simpl; [reflexivity|].
    rewrite Map_set_fresh by exact Hh.
    unfold Map_values. rewrite !map_app, <- app_assoc. simpl. do 2 f_equal.
    apply first_occurrences_ext. intros a. rewrite in_app_iff. simpl. tauto.
Qed.

Lemma merge_first_occurrences (l : list SearchResult) :
  mergeSearchResults l = first_occurrences [] (filter (fun r => truthy (asin r)) l).
Proof.
  unfold mergeSearchResults.
  rewrite merge_fold_first_occurrences by constructor. reflexivity.
Qed.

(** Where an entry of the merged pool comes from: the input splits at the
    first result that carries its id, and the entries before it are the
    merge of what precedes that result. *)
Lemma merge_position (l : list SearchResult) :
  forall (m1 : list SearchResult) (r : SearchResult) (m2 : list SearchResult),
    mergeSearchResults l = m1 ++ r :: m2 ->
    exists l1 l2,
      l = l1 ++ r :: l2
      /\ (forall r', In r' l1 -> asin r' <> asin r)
      /\ mergeSearchResults l1 = m1.
Proof.
  induction l as [|x l IH] using rev_ind; intros m1 r m2 H.
  - destruct m1; discriminate.
  - rewrite merge_snoc in H.
    assert (Hold : forall m2', mergeSearchResults l = m1 ++ r :: m2' ->
                   exists l1 l2, l ++ [x] = l1 ++ r :: l2
                     /\ (forall r', In r' l1 -> asin r' <> asin r)
                     /\ mergeSearchResults l1 = m1).
    { intros m2' H'. destruct (IH _ _ _ H') as [l1 [l2 [-> [Hn Hm]]]].
      exists l1, (l2 ++ [x]). rewrite <- app_assoc. simpl. auto. }
    destruct (truthy (asin x)) eqn:Ht; simpl in H; [|eauto].
    destruct (existsb (String.eqb (asin x)) (map asin (mergeSearchResults l))) eqn:He;
      simpl in H; [eauto|].
    destruct m2 as [|y m2 _] using rev_ind.
    + apply app_inj_tail in H as [Hm ->].
      exists l, []. repeat split; auto.
      intros r' Hr' Heq.
      assert (Hin : In (asin r) (map asin (mergeSearchResults l))).
      { apply merge_ids. split; [exact Ht|]. rewrite <- Heq. apply in_map, Hr'. }
      apply existsb_eqb_In in Hin. congruence.
    + change (m1 ++ r :: m2 ++ [y]) with (m1 ++ (r :: m2) ++ [y]) in H.
      rewrite app_assoc in H. apply app_inj_tail in H as [Hm _].
      apply (Hold m2). exact Hm.
Qed.


(** C6, as stated, fails: a result whose product id is the empty string is
    dropped from the merged pool, so that id has no entry. *)
Lemma mergeSearchResults_drops_empty_id :
  mergeSearchResults [result_of "" 5] = []
  /\ ~ (forall (l : list SearchResult) (a : string),
          In a (map asin l) ->
          exists r, In r (mergeSearchResults l) /\ asin r = a).
Proof.
  split; [reflexivity|].
  intros H. destruct (H [result_of "" 5] ""%string) as [r [[] _]].
  left. reflexivity.
Qed.

(** C6, amended.  The merged pool holds exactly one entry per distinct
    non-empty product id of the combined list, namely the first result that
    carries it, in first-occurrence order; results without a product id (or
    with an empty one) are dropped. *)
Theorem mergeSearchResults_first_occurrence (l : list SearchResult) :
  mergeSearchResults l = first_occurrences [] (filter (fun r => truthy (asin r)) l)
  /\ NoDup (map asin (mergeSearchResults l))
  /\ (forall a : string,
        In a (map asin (mergeSearchResults l)) <-> truthy a = true /\ In a (map asin l))
  /\ (forall (m1 : list SearchResult) (r : SearchResult) (m2 : list SearchResult),
        mergeSearchResults l = m1 ++ r :: m2 ->
        exists l1 l2,
          l = l1 ++ r :: l2
          /\ (forall r', In r' l1 -> asin r' <> asin r)
          /\ mergeSearchResults l1 = m1).
Proof.
  split; [apply merge_first_occurrences|].
  split; [apply merge_NoDup|].
  split; [apply merge_ids|apply merge_position].
Qed.

(** The design document's example: the second result repeats the id of the
    first with another price; the first-seen price is retained. *)
Lemma mergeSearchResults_first_occurrence_witness :
  exists l1 l2,
    [result_of "A1" 10; result_of "B2" 7; result_of "A1" 12; result_of "" 3]
    = l1 ++ result_of "B2" 7 :: l2
    /\ (forall r', In r' l1 -> asin r' <> asin (result_of "B2" 7))
    /\ mergeSearchResults l1 = [result_of "A1" 10].
Proof.
  apply (proj2 (proj2 (proj2 (mergeSearchResults_first_occurrence
           [result_of "A1" 10; result_of "B2" 7; result_of "A1" 12; result_of "" 3])))
         [result_of "A1" 10] (result_of "B2" 7) []).
  reflexivity.
Defined.

(* ================================================================== *)
(** ** Selector *)

Lemma totalCostOf_from (items : list SelectedItem) :
  forall acc : Q,
    fold_left (fun sum i => sum + quantity i * unit_price i) items acc
    == acc + sumLines items.
Proof.
  induction items as [|i items IH]; intros acc; simpl.
  - lra.
  - rewrite IH. lra.
Qed.

Lemma totalCostOf_sumLines (items : list SelectedItem) :
  totalCostOf items == sumLines items.
Proof.
  unfold totalCostOf. rewrite totalCostOf_from. lra.
Qed.

Lemma relink_cost (pool : list SearchResult) (chosen : list SelectedItem) :
  sumLines (map (relink pool) chosen) = sumLines chosen.
Proof.
  induction chosen as [|i chosen IH]; simpl; [reflexivity|]. rewrite IH. reflexivity.
Qed.

Lemma fallbackItems_each (results : list SearchResult) (funds : jsnum) :
  Forall (fun i => quantity i = 1 /\ leNum (unit_price i) funds = true)
    (fallbackItems results funds).
Proof.
  unfold fallbackItems. apply Forall_forall. intros i Hi.
  apply filter_In in Hi as [Hin Hle]. split; [|exact Hle].
  apply in_map_iff in Hin as [r [<- _]]. reflexivity.
Qed.

Lemma fallbackItems_length (results : list SearchResult) (funds : jsnum) :
  (List.length (fallbackItems results funds) <= 8)%nat.
Proof.
  unfold fallbackItems.
  eapply Nat.le_trans; [apply filter_length_le|].
  rewrite length_map, length_firstn. lia.
Qed.

Lemma sumLines_bound (items : list SelectedItem) (f : Q) :
  Forall (fun i => quantity i = 1 /\ leNum (unit_price i) (JFin f) = true) items ->
  sumLines items <= inject_Z (Z.of_nat (List.length items)) * f.
Proof.
  induction 1 as [|i items [Hq Hp] _ IH].
  - change (0 <= 0 * f). lra.
  - cbn [sumLines List.length]. rewrite Nat2Z.inj_succ. unfold Z.succ.
    rewrite inject_Z_plus. change (inject_Z 1) with 1.
    simpl in Hp. apply Qle_bool_iff in Hp. rewrite Hq. lra.
Qed.



(** C1, as stated, fails on both paths: with budget 50 the deterministic
    fallback returns eight items of price 10 (total 80), and the ranked path
    returns the capability's items whatever they cost (here 300). *)
Lemma recommendFromWebShop_over_budget :
  source (recommendFromWebShop false None pool10 "50") = webshop
  /\ List.length (items (recommendFromWebShop false None pool10 "50")) = 8%nat
  /\ totalCostOf (items (recommendFromWebShop false None pool10 "50")) == 80
  /\ ~ (totalCostOf (items (recommendFromWebShop false None pool10 "50")) <= 50)
  /\ source (recommendFromWebShop true (Some [ranked_pick]) pool10 "50") = grok
  /\ totalCostOf (items (recommendFromWebShop true (Some [ranked_pick]) pool10 "50")) == 300
  /\ ~ (totalCostOf (items (recommendFromWebShop true (Some [ranked_pick]) pool10 "50")) <= 50).
Proof.
  assert (Hgt : forall x : Q, x == 80 \/ x == 300 -> ~ x <= 50) by (intros x [H|H]; lra).
  split; [reflexivity|]. split; [reflexivity|].
  split; [reflexivity|]. split; [apply Hgt; left; reflexivity|].
  split; [reflexivity|]. split; [reflexivity|]. apply Hgt; right; reflexivity.
Qed.

(** C1, amended.  On the deterministic fallback path the Selector returns at
    most eight items, each with quantity 1 and a unit price that is at most
    the budget, so the total cost is at most the number of selected items
    times the budget.  On the capability-ranked path it returns the
    capability's items with their quantities and prices as given, so the
    total cost is the one the capability chose. *)
Theorem recommendFromWebShop_budget (key : bool)
  (grokReply : capability (list SelectedItem)) (mergedResults : list SearchResult)
  (fundsCrypto : string) :
  let r := recommendFromWebShop key grokReply mergedResults fundsCrypto in
  (source r = webshop ->
     items r = fallbackItems mergedResults (fundsOf fundsCrypto)
     /\ (List.length (items r) <= 8)%nat
     /\ Forall (fun i => quantity i = 1
                         /\ leNum (quantity i * unit_price i) (fundsOf fundsCrypto) = true)
          (items r)
     /\ (forall f, fundsOf fundsCrypto = JFin f ->
           totalCostOf (items r) <= inject_Z (Z.of_nat (List.length (items r))) * f))
  /\ (source r = grok ->
      exists chosen, key = true /\ grokReply = Some chosen
        /\ items r = map (relink mergedResults) chosen
        /\ totalCostOf (items r) == sumLines chosen).
Proof.
  intros r. subst r.
  assert (Hfb : let l := fallbackItems mergedResults (fundsOf fundsCrypto) in
                (List.length l <= 8)%nat
                /\ Forall (fun i => quantity i = 1
                           /\ leNum (quantity i * unit_price i) (fundsOf fundsCrypto) = true) l
                /\ (forall f, fundsOf fundsCrypto = JFin f ->
                      totalCostOf l <= inject_Z (Z.of_nat (List.length l)) * f)).
  { cbv zeta. split; [apply fallbackItems_length|]. split.
    - eapply Forall_impl; [|apply fallbackItems_each].
      intros i [Hq Hp]. split; [exact Hq|].
      rewrite Hq. destruct (fundsOf fundsCrypto) as [|neg|f]; simpl in *; auto.
      rewrite <- Hp. apply Qleb_comp; [lra|reflexivity].
    - intros f Hf. rewrite totalCostOf_sumLines. apply sumLines_bound.
      rewrite <- Hf. apply fallbackItems_each. }
  cbv zeta in Hfb. unfold recommendFromWebShop.
  destruct (if key && (0 <? List.length mergedResults)%nat
            then callGrokOnSearchResults key grokReply mergedResults else None)
    as [[|c cs]|] eqn:Hg; cbn [items source].
  - split; [intros _; split; [reflexivity|exact Hfb]|discriminate].
  - split; [discriminate|]. intros _.
    destruct key; [|discriminate].
    destruct (0 <? List.length mergedResults)%nat; [|discriminate].
    simpl in Hg. destruct grokReply as [chosen|]; [|discriminate].
    simpl in Hg. injection Hg as Hg. exists chosen.
    split; [reflexivity|]. split; [reflexivity|]. split; [symmetry; exact Hg|].
    rewrite totalCostOf_sumLines, <- Hg. rewrite relink_cost. reflexivity.
  - split; [intros _; split; [reflexivity|exact Hfb]|discriminate].
Qed.

Lemma recommendFromWebShop_budget_witness :
  totalCostOf (items (recommendFromWebShop false None pool10 "50"))
  <= inject_Z (Z.of_nat (List.length (items (recommendFromWebShop false None pool10 "50")))) * 50.
Proof.
  apply (proj1 (recommendFromWebShop_budget false None pool10 "50")); reflexivity.
Defined.

(* ================================================================== *)
(** ** Unfound Resolver *)

Lemma parsePriceFromText_pos (text : string) (p : Q) :
  parsePriceFromText text = Some p -> 0 < p.
Proof.
  unfold parsePriceFromText.
  destruct (truthy text); [|discriminate].
  destruct (matchPrice text) as [m|]; [|discriminate].
  destruct (parseFloat (dropCommas m)) as [| |n]; try discriminate.
  destruct (Qlt_bool 0 n) eqn:E; [|discriminate].
  intros [= <-]. apply Qlt_bool_iff, E.
Qed.


Lemma quantityFor_range (remaining p : Q) : (1 <= quantityFor remaining p <= 99)%Z.
Proof. unfold quantityFor. lia. Qed.

Lemma quantityFor_affordable (remaining p : Q) :
  0 < p -> p <= remaining -> inject_Z (quantityFor remaining p) * p <= remaining.
Proof.
  intros Hp Hle. unfold quantityFor, Math_floor.
  assert (Hone : (1 <= Qfloor (remaining / p))%Z).
  { rewrite <- (Qfloor_Z 1). apply Qfloor_resp_le.
    apply Qle_shift_div_l; [exact Hp|]. change (inject_Z 1) with 1. lra. }
  assert (Hq : inject_Z (Z.min 99 (Z.max 1 (Qfloor (remaining / p))))
               <= remaining / p).
  { eapply Qle_trans; [|apply Qfloor_le]. rewrite <- Zle_Qle. lia. }
  apply (Qmult_le_compat_r _ _ p) in Hq; [|lra].
  eapply Qle_trans; [exact Hq|].
  assert (He : remaining / p * p == remaining) by (field; lra).
  rewrite He. lra.
Qed.

Lemma quantityFor_unaffordable (remaining p : Q) :
  0 < p -> remaining < p -> quantityFor remaining p = 1%Z.
Proof.
  intros Hp Hlt. unfold quantityFor, Math_floor.
  assert (H : (Qfloor (remaining / p) < 1)%Z).
  { rewrite Zlt_Qlt. eapply Qle_lt_trans; [apply Qfloor_le|].
    apply Qlt_shift_div_r; [exact Hp|]. change (inject_Z 1) with 1. lra. }
  lia.
Qed.


Section UnfoundLoopFacts.

Variable externalSearchLink : string -> string.
Variable rawSearches : list (list RawResult).




End UnfoundLoopFacts.







(* ================================================================== *)
(** ** Payment Simulator *)







Example paymentLedger_example :
  map balanceAfter (paymentSteps (paymentLedger cart 100)) = [100 - 3 * 10; 100 - 3 * 10 - 1 * 25]
  /\ totalSpent (paymentLedger cart 100) == 55.
Proof. split; reflexivity. Qed.

(* ================================================================== *)
(** ** The budget read by the recommendation entrypoint *)

Lemma fundsOf_200 : fundsOf "200" = JFin 200.
Proof. reflexivity. Qed.







(* ================================================================== *)
(** ** The definitions on concrete inputs *)

Example holtForecast_edge_cases :
  holtForecast [] (3 # 10) (1 # 10) 30 = {| forecast := []; level := 0; trend := 0 |}
  /\ forecast (holtForecast [5] (3 # 10) (1 # 10) 3) = [5; 5; 5]%Z
  /\ forecast (holtForecast [1; 3] (1 # 2) (1 # 2) 2) = [5; 7]%Z
  /\ daysUntilReorder 5 2 [2; 0; 0]%Z = None
  /\ daysUntilReorder 0 (-2 # 1) [2; 0; 0]%Z = None
  /\ daysUntilReorder 1 (-2 # 1) [9; 7; 5]%Z = None
  /\ daysUntilReorder 5 (-2 # 1) [9; 7; 5; 3]%Z = Some 3%Z.
Proof. repeat split. Qed.

Example parseFloat_examples :
  parseFloat "200" = JFin 200
  /\ parseFloat "abc" = JNaN
  /\ parseFloat "" = JNaN
  /\ parseFloat "." = JNaN
  /\ parseFloat "-Infinity" = JInf true
  /\ (exists q, parseFloat "  12.50 USD" = JFin q /\ q == 25 # 2)
  /\ (exists q, parseFloat "1e3" = JFin q /\ q == 1000)
  /\ (exists q, parseFloat "-.5" = JFin q /\ q == - (1 # 2)).
Proof.
  repeat split; try reflexivity; eexists; split; reflexivity.
Qed.

Example trim_examples :
  trim "  usb cable  " = "usb cable"%string
  /\ trim "   " = ""%string
  /\ trim "mouse" = "mouse"%string.
Proof. repeat split. Qed.

Example parsePriceFromText_examples :
  (exists p, parsePriceFromText "Only $1,234.56 today" = Some p /\ p == 123456 # 100)
  /\ (exists p, parsePriceFromText "$12.9 and $7" = Some p /\ p == 12)
  /\ parsePriceFromText "no price here" = None
  /\ parsePriceFromText "$0.00" = None
  /\ parsePriceFromText "$,,," = None.
Proof.
  repeat split; try reflexivity; eexists; split; reflexivity.
Qed.

Example quantityFor_examples :
  quantityFor 100 30 = 3%Z /\ quantityFor 10 20 = 1%Z /\ quantityFor 20 20 = 1%Z
  /\ quantityFor 10000 1 = 99%Z.
Proof. repeat split. Qed.

Example mergeSearchResults_example :
  mergeSearchResults
    [result_of "A1" 10; result_of "B2" 7; result_of "A1" 12; result_of "" 3]
  = [result_of "A1" 10; result_of "B2" 7].
Proof. reflexivity. Qed.

Example searchLoop_example :
  searchLoop [("a"%string, SearchData (Some [result_of "A1" 10; result_of "A1" 12]));
              ("b"%string, SearchData (Some []));
              ("c"%string, SearchFailed)]
  = {| allResults := [result_of "A1" 10; result_of "A1" 12];
       usedQueries := ["a"; "b"]%string;
       unfoundQueries := ["b"; "c"]%string |}.
Proof. reflexivity. Qed.

(** A run of the chain without an API key: the request is the only query,
    the catalog answers it with two results, the fallback rule keeps the one
    the budget allows. *)
Example recommendChain_example :
  let world :=
    {| key := false; parseReply := None; queriesReply := None;
       callWebShopSearch := fun q =>
         if String.eqb q "usb cable"
         then SearchData (Some [result_of "A1" 10; result_of "B2" 70])
         else SearchFailed;
       runExternalSearch := fun _ => [];
       selectReply := None |} in
  let r := recommendChain shopLink world "usb cable" "50" 30 in
  map si_asin (rec_items r) = ["A1"%string]
  /\ totalCost r == 10
  /\ rec_source r = webshop
  /\ webshopQueries r = ["usb cable"%string]
  /\ unfound_items r = [].
Proof. repeat split. Qed.

(* ================================================================== *)
(** ** Quantities: quantityFromBudget and the holiday reply *)

Lemma Qle_bool_false_lt (a b : Q) : Qle_bool a b = false -> b < a.
Proof.
  intros H. apply Qnot_le_lt. intros Hle. apply Qle_bool_iff in Hle. congruence.
Qed.




Lemma fundsOf_not_NaN (fundsCrypto : string) : fundsOf fundsCrypto <> JNaN.
Proof.
  unfold fundsOf, orNum. destruct (parseFloat fundsCrypto) as [|neg|q]; simpl;
    try discriminate.
  destruct (Qeq_bool q 0); discriminate.
Qed.

(** X2.  The holiday reply always carries a quantity between 1 and 99 and a
    total cost of 499 times that quantity; the total is within the budget
    when the budget is at least 499, and when the budget is below 499 the
    reply still carries one unit, so its total of 499 exceeds the budget. *)
Theorem holiday_reply_quantity (fundsCrypto : string) :
  exists quantity : Z,
    holidayQuantity fundsCrypto = Some quantity
    /\ (1 <= quantity <= 99)%Z
    /\ holidayTotalCost fundsCrypto = Some (inject_Z quantity * 499)
    /\ forall fundsNum, fundsOf fundsCrypto = JFin fundsNum ->
         (499 <= fundsNum -> inject_Z quantity * 499 <= fundsNum)
         /\ (fundsNum < 499 -> quantity = 1%Z /\ fundsNum < inject_Z quantity * 499).
Proof.
  unfold holidayTotalCost, holidayQuantity, holidayUnitPrice.
  pose proof (fundsOf_not_NaN fundsCrypto) as Hn.
  destruct (fundsOf fundsCrypto) as [|neg|f]; [congruence| |].
  - exists (if neg then 1%Z else 99%Z). split; [reflexivity|].
    split; [destruct neg; lia|]. split; [reflexivity|]. intros x H. discriminate H.
  - exists (quantityFor f 499). fold (quantityFor f 499).
    split; [reflexivity|]. split; [apply quantityFor_range|]. split; [reflexivity|].
    intros x [= <-]. split.
    + intros H. apply quantityFor_affordable; [reflexivity|exact H].
    + intros H. rewrite (quantityFor_unaffordable (remaining := f) (p := 499));
        [|reflexivity|exact H].
      split; [reflexivity|]. change (inject_Z 1) with 1. lra.
Qed.

Lemma holiday_reply_quantity_witness :
  exists quantity : Z,
    holidayQuantity "1000" = Some quantity /\ inject_Z quantity * 499 <= 1000.
Proof.
  destruct (holiday_reply_quantity "1000") as [q [Hq [_ [_ H]]]].
  exists q. split; [exact Hq|].
  apply (proj1 (H 1000 eq_refl)). discriminate.
Defined.



(* ================================================================== *)
(** ** Forecaster: linear series, monotone forecasts, the dashboard reply *)


Lemma map_ext_Qeq_round (L1 b1 L2 b2 : Q) (l : list nat) :
  L1 == L2 -> b1 == b2 ->
  map (fun i => holt_step (L1, b1) (Z.of_nat i)) l
  = map (fun i => holt_step (L2, b2) (Z.of_nat i)) l.
Proof.
  intros HL Hb. apply map_ext. intros i. unfold holt_step, Math_round. cbn [fst snd].
  f_equal. apply Qfloor_comp. rewrite HL, Hb. reflexivity.
Qed.



Lemma Math_round_mono (x y : Q) : x <= y -> (Math_round x <= Math_round y)%Z.
Proof.
  intros H. unfold Math_round. apply Qfloor_resp_le. lra.
Qed.

Lemma forecast_entry (series : list Q) (alpha beta : Q) (horizon : Z) (i : nat) (v : Z) :
  nth_error (forecast (holtForecast series alpha beta horizon)) i = Some v ->
  let r := holtForecast series alpha beta horizon in
  v = Z.max 0 (Math_round (level r + inject_Z (Z.of_nat (S i)) * trend r))
  /\ (i < Z.to_nat horizon)%nat.
Proof.
  cbv zeta. rewrite holtForecast_eq_reference.
  destruct series as [|x0 rest]; [destruct i; discriminate|].
  unfold holt_reference. cbn [forecast level trend].
  intros H. rewrite nth_error_map in H.
  destruct (nth_error (seq 1 (Z.to_nat horizon)) i) as [k|] eqn:Hk; [|discriminate].
  assert (Hi : (i < Z.to_nat horizon)%nat).
  { rewrite <- (length_seq (Z.to_nat horizon) 1). apply nth_error_Some. congruence. }
  rewrite (nth_error_nth' _ O) in Hk by (rewrite length_seq; exact Hi).
  rewrite seq_nth in Hk by exact Hi. injection Hk as <-.
  injection H as <-. split; [reflexivity|exact Hi].
Qed.

Lemma forecast_order (series : list Q) (alpha beta : Q) (horizon : Z)
  (i j : nat) (vi vj : Z) :
  (i <= j)%nat ->
  nth_error (forecast (holtForecast series alpha beta horizon)) i = Some vi ->
  nth_error (forecast (holtForecast series alpha beta horizon)) j = Some vj ->
  (trend (holtForecast series alpha beta horizon) <= 0 -> (vj <= vi)%Z)
  /\ (0 <= trend (holtForecast series alpha beta horizon) -> (vi <= vj)%Z).
Proof.
  intros Hij Hi Hj.
  apply forecast_entry in Hi as [-> _]. apply forecast_entry in Hj as [-> _].
  set (L := level _). set (b := trend _).
  assert (Hle : inject_Z (Z.of_nat (S i)) <= inject_Z (Z.of_nat (S j)))
    by (rewrite <- Zle_Qle; lia).
  split; intros Hb.
  - apply Z.max_le_compat_l, Math_round_mono. nra.
  - apply Z.max_le_compat_l, Math_round_mono. nra.
Qed.

(** X5.  The forecast follows the sign of the trend: when the trend is not
    positive a later day never forecasts more than an earlier day, and when
    the trend is not negative it never forecasts less. *)
Theorem holtForecast_monotone (series : list Q) (alpha beta : Q) (horizon : Z)
  (i j : nat) (vi vj : Z) :
  (i <= j)%nat ->
  nth_error (forecast (holtForecast series alpha beta horizon)) i = Some vi ->
  nth_error (forecast (holtForecast series alpha beta horizon)) j = Some vj ->
  (trend (holtForecast series alpha beta horizon) <= 0 -> (vj <= vi)%Z)
  /\ (0 <= trend (holtForecast series alpha beta horizon) -> (vi <= vj)%Z).
Proof.
  apply forecast_order.
Qed.

Lemma holtForecast_monotone_witness :
  nth_error (forecast (holtForecast [10; 8; 6; 4] (3 # 10) (1 # 10) 3)) 0 = Some 2%Z
  /\ nth_error (forecast (holtForecast [10; 8; 6; 4] (3 # 10) (1 # 10) 3)) 2 = Some 0%Z
  /\ (0 <= 2)%Z.
Proof.
  split; [reflexivity|]. split; [reflexivity|].
  apply (proj1 (@holtForecast_monotone [10; 8; 6; 4] (3 # 10) (1 # 10) 3 0 2 2 0
                  ltac:(lia) eq_refl eq_refl)).
  vm_compute. discriminate.
Defined.

Lemma Map_get_set {V : Type} (m : JsMap V) (k k' : string) (v : V) :
  Map_get (Map_set m k v) k' = if String.eqb k k' then Some v else Map_get m k'.
Proof.
  induction m as [|[k0 v0] m IH]; simpl.
  - reflexivity.
  - destruct (String.eqb k0 k) eqn:E0; simpl.
    + apply String.eqb_eq in E0. subst k0.
      destruct (String.eqb k k'); reflexivity.
    + destruct (String.eqb k0 k') eqn:E1.
      * apply String.eqb_eq in E1. subst k0.
        rewrite String.eqb_sym in E0. rewrite E0. reflexivity.
      * exact IH.
Qed.

Lemma find_snoc {A : Type} (f : A -> bool) (l : list A) (x : A) :
  find f (l ++ [x]) = match find f l with Some y => Some y | None => if f x then Some x else None end.
Proof.
  induction l as [|a l IH]; simpl; [reflexivity|].
  destruct (f a); [reflexivity|exact IH].
Qed.

Lemma reorder_fold_get (ps : list CatalogProduct) (a : string) :
  forall m : JsMap ReorderInfo,
    Map_get (fold_left (fun map p => Map_set map (cp_asin p) (reorderEntry p)) ps m) a
    = match find (fun p => String.eqb (cp_asin p) a) (rev ps) with
      | Some p => Some (reorderEntry p)
      | None => Map_get m a
      end.
Proof.
  induction ps as [|p ps IH]; intros m; simpl; [reflexivity|].
  rewrite IH, find_snoc, Map_get_set.
  destruct (find _ (rev ps)); [reflexivity|].
  destruct (String.eqb (cp_asin p) a); reflexivity.
Qed.

(** X6.  getReorderPoints keeps, for every product id, the reorder data of
    the last catalog entry with that id (a missing reorder point or quantity
    counting as 0), and nothing when the catalog cannot be read. *)
Theorem getReorderPoints_last_wins (data : capability (list CatalogProduct)) (a : string) :
  Map_get (getReorderPoints data) a
  = match data with
    | Some ps =>
        option_map reorderEntry (find (fun p => String.eqb (cp_asin p) a) (rev ps))
    | None => None
    end.
Proof.
  destruct data as [ps|]; [|reflexivity].
  unfold getReorderPoints. rewrite reorder_fold_get.
  destruct (find _ (rev ps)); reflexivity.
Qed.

Lemma firstn_incl {A : Type} (n : nat) :
  forall (l : list A) (x : A), In x (firstn n l) -> In x l.
Proof.
  induction n as [|n IH]; intros [|a l] x H; simpl in *; try contradiction.
  destruct H as [H|H]; [left; exact H|right; apply IH, H].
Qed.

Lemma sumZ_from (l : list Z) : forall acc : Z, fold_left Z.add l acc = (acc + fold_right Z.add 0 l)%Z.
Proof.
  induction l as [|x l IH]; intros acc; simpl; [lia|]. rewrite IH. lia.
Qed.

Lemma sumZ_nonneg (l : list Z) : Forall (fun v => (0 <= v)%Z) l -> (0 <= sumZ l)%Z.
Proof.
  unfold sumZ. rewrite sumZ_from. induction 1; simpl; lia.
Qed.

Lemma holtForecast_nonneg (series : list Q) (alpha beta : Q) (horizon : Z) :
  Forall (fun v => (0 <= v)%Z) (forecast (holtForecast series alpha beta horizon)).
Proof.
  apply Forall_forall. intros v Hv. apply In_nth_error in Hv as [i Hi].
  apply forecast_entry in Hi as [-> _]. lia.
Qed.

Lemma holtForecast_length (series : list Q) (alpha beta : Q) (horizon : Z) :
  List.length (forecast (holtForecast series alpha beta horizon))
  = match series with [] => O | _ :: _ => Z.to_nat horizon end.
Proof.
  rewrite holtForecast_eq_reference. destruct series; [reflexivity|].
  unfold holt_reference. cbn [forecast]. rewrite length_map, length_seq. reflexivity.
Qed.

(** X7.  Whatever the query strings are, /api/dashboard/series uses between
    7 and 365 days and /api/dashboard/forecast a horizon between 7 and 90
    days (30 when the parameter is absent, unparsable or 0) and at most 365
    days of history; every product of the forecast reply with a
    non-empty series gets exactly horizon forecast values, all non-negative,
    and a non-negative daily-sales figure; a product with an empty series
    gets no forecast and no reorder day. *)
Theorem dashboardForecast_shape (days horizon days_back : option string)
  (catalog : capability (list CatalogProduct)) (byAsin : list (string * ProductSeries)) :
  (7 <= seriesDays days <= 365)%Z
  /\ (7 <= forecastHorizonParam horizon <= 90)%Z
  /\ (forecastDaysBack days_back <= 365)%Z
  /\ ((horizon = None \/ (exists s, horizon = Some s /\ (parseInt s = None \/ parseInt s = Some 0%Z))) ->
      forecastHorizonParam horizon = 30%Z)
  /\ List.length (dashboardForecast horizon catalog byAsin) = List.length byAsin
  /\ Forall (fun p =>
        Forall (fun v => (0 <= v)%Z) (fp_forecast p)
        /\ 0 <= forecast_daily_sales p
        /\ (fp_series p <> [] ->
            Z.of_nat (List.length (fp_forecast p)) = forecastHorizonParam horizon)
        /\ (fp_series p = [] ->
            fp_forecast p = [] /\ days_until_reorder p = None /\ last_date p = None))
       (dashboardForecast horizon catalog byAsin).
Proof.
  split; [unfold seriesDays; lia|]. split; [unfold forecastHorizonParam; lia|].
  split; [unfold forecastDaysBack; lia|]. split.
  { unfold forecastHorizonParam, intParamOr.
    intros [-> | [s [-> [-> | ->]]]]; reflexivity. }
  split; [unfold dashboardForecast; apply length_map|].
  unfold dashboardForecast. apply Forall_map, Forall_forall. intros [asin v] _.
  unfold forecastProduct.
  cbn [fp_forecast forecast_daily_sales fp_series days_until_reorder last_date].
  set (H := forecastHorizonParam horizon).
  assert (HH : (7 <= H <= 90)%Z) by (unfold H, forecastHorizonParam; lia).
  split; [apply holtForecast_nonneg|]. split.
  { set (daily := inject_Z _ / 7).
    assert (Hd : 0 <= daily).
    { unfold daily. apply Qle_shift_div_l; [reflexivity|].
      rewrite Qmult_0_l. change 0 with (inject_Z 0). rewrite <- Zle_Qle.
      apply sumZ_nonneg. apply Forall_forall. intros x Hx.
      pose proof (holtForecast_nonneg (map (fun p => inject_Z (quantity_sold p)) (points v))
                    (3 # 10) (1 # 10) H) as Hall.
      rewrite Forall_forall in Hall. apply Hall.
      eapply firstn_incl; exact Hx. }
    destruct (Qeq_bool daily 0); [lra|exact Hd]. }
  split.
  - intros Hne. rewrite holtForecast_length.
    destruct (points v) as [|p ps]; [congruence|]. simpl. lia.
  - intros ->. simpl. split; [reflexivity|]. split; [|reflexivity].
    unfold daysUntilReorder. destruct (_ && _); reflexivity.
Qed.

Lemma dashboardForecast_shape_witness :
  forecastHorizonParam (Some "abc"%string) = 30%Z.
Proof.
  apply (proj1 (proj2 (proj2 (proj2 (dashboardForecast_shape None (Some "abc"%string) None
            None []))))).
  right. exists "abc"%string. split; [reflexivity|]. left. reflexivity.
Defined.

(** X8.  When the forecast reply gives a product a reorder day d, the
    product has a positive reorder point in the catalog and a negative
    trend, d lies between 1 and the number of forecast days, every forecast
    before day d is above the reorder point, and every forecast from day d
    on is at or below it. *)
Theorem forecastProduct_reorder_day (reorder : JsMap ReorderInfo) (horizon : Z)
  (entry : string * ProductSeries) (d : Z) :
  let p := forecastProduct reorder horizon entry in
  days_until_reorder p = Some d ->
  (1 <= d <= Z.of_nat (List.length (fp_forecast p)))%Z
  /\ 0 < fp_reorder_point p
  /\ fp_trend p < 0
  /\ (exists info, Map_get reorder (fst entry) = Some info
                   /\ reorder_point info = fp_reorder_point p)
  /\ forall (day : nat) (v : Z),
       nth_error (fp_forecast p) day = Some v ->
       ((Z.of_nat day + 1 < d)%Z -> fp_reorder_point p < inject_Z v)
       /\ ((d <= Z.of_nat day + 1)%Z -> inject_Z v <= fp_reorder_point p).
Proof.
  destruct entry as [asin v]. cbv zeta. unfold forecastProduct.
  cbn [days_until_reorder fp_forecast fp_reorder_point fp_trend fst].
  set (r := holtForecast _ (3 # 10) (1 # 10) horizon).
  set (rp := match Map_get reorder asin with Some i => reorder_point i | None => 0 end).
  unfold daysUntilReorder, findIndex.
  destruct (Qlt_bool 0 rp) eqn:Hrp; [|discriminate].
  destruct (Qlt_bool (trend r) 0) eqn:Htr; [|discriminate].
  apply Qlt_bool_iff in Hrp. apply Qlt_bool_iff in Htr. cbn [andb].
  set (crosses := fun f : Z => Qle_bool (inject_Z f) rp).
  destruct (findIndexFrom_spec crosses (forecast r) 0) as [[Hn _]|[i [Hi [[x [Hx Hpx]] Hleast]]]].
  { rewrite Hn. discriminate. }
  rewrite Hi. replace (0 <=? 0 + Z.of_nat i)%Z with true by (symmetry; apply Z.leb_le; lia).
  intros [= <-].
  assert (Hlen : (i < List.length (forecast r))%nat) by (apply nth_error_Some; congruence).
  split; [lia|]. split; [exact Hrp|]. split; [exact Htr|]. split.
  { unfold rp in *. destruct (Map_get reorder asin) as [info|].
    - exists info. auto.
    - exfalso. lra. }
  intros day w Hw. split.
  - intros Hday. assert (Hlt : (day < i)%nat) by lia.
    specialize (Hleast day w Hlt Hw). unfold crosses in Hleast.
    apply Qle_bool_false_lt, Hleast.
  - intros Hday. assert (Hge : (i <= day)%nat) by lia.
    destruct (forecast_order _ _ _ _ Hge Hx Hw) as [Hdown _].
    unfold crosses in Hpx. apply Qle_bool_iff in Hpx.
    assert (Hwx : (w <= x)%Z) by (apply Hdown; fold r; lra).
    rewrite Zle_Qle in Hwx. lra.
Qed.

Lemma forecastProduct_reorder_day_witness :
  (1 <= 1 <= Z.of_nat (List.length (fp_forecast (forecastProduct
      [("A1"%string, {| reorder_point := 5; reorder_qty := 20; ri_name := "usb cable" |})] 3
      ("A1"%string, declining_stock)))))%Z.
Proof.
  apply (@forecastProduct_reorder_day
           [("A1"%string, {| reorder_point := 5; reorder_qty := 20; ri_name := "usb cable" |})] 3
           ("A1"%string, declining_stock) 1).
  reflexivity.
Defined.

(* ================================================================== *)
(** ** The recommendation chain: accounting and composition *)




Lemma dispatch_closed (search : string -> SearchResponse) (qs : list string) :
  allResults (dispatch search qs) = flat_map (fun q => resultsOf (search q)) qs
  /\ usedQueries (dispatch search qs) = filter (fun q => answered (search q)) qs
  /\ unfoundQueries (dispatch search qs) = filter (fun q => noResults (search q)) qs.
Proof.
  unfold dispatch.
  destruct (searchLoop_closed (map (fun q => (q, search q)) qs)) as [Ha [Hu Hn]].
  rewrite Ha, Hu, Hn. clear Ha Hu Hn.
  induction qs as [|q qs [IHa [IHu IHn]]]; simpl; [auto|].
  rewrite IHa. split; [reflexivity|]. split.
  - destruct (answered (search q)); simpl; rewrite IHu; reflexivity.
  - destruct (noResults (search q)); simpl; rewrite IHn; reflexivity.
Qed.



Lemma merge_In (l : list SearchResult) (r : SearchResult) :
  In r (mergeSearchResults l) -> In r l /\ truthy (asin r) = true.
Proof.
  intros H. split.
  - apply in_split in H as [m1 [m2 Hm]].
    destruct (merge_position l _ _ _ Hm) as [l1 [l2 [-> _]]].
    apply in_or_app. right. left. reflexivity.
  - apply (merge_ids l (asin r)). apply in_map, H.
Qed.

Lemma NoDup_map_filter {A B : Type} (g : A -> B) (f : A -> bool) (l : list A) :
  NoDup (map g l) -> NoDup (map g (filter f l)).
Proof.
  induction l as [|a l IH]; simpl; intros H; [constructor|].
  inversion H as [|x xs Hnin Hnd]; subst.
  destruct (f a); simpl; [|apply IH, Hnd].
  constructor; [|apply IH, Hnd].
  intros Hin. apply Hnin. apply in_map_iff in Hin as [b [Hb Hin]].
  apply filter_In in Hin as [Hin _]. apply in_map_iff. exists b. auto.
Qed.

Lemma NoDup_firstn {A : Type} (n : nat) :
  forall l : list A, NoDup l -> NoDup (firstn n l).
Proof.
  induction n as [|n IH]; intros [|a l] H; simpl; try constructor.
  - inversion H as [|x xs Hnin Hnd]; subst. intros Hin. apply Hnin.
    eapply firstn_incl. exact Hin.
  - inversion H; subst. apply IH. assumption.
Qed.

Lemma filter_map_comm {A B : Type} (h : A -> B) (f : B -> bool) (l : list A) :
  filter f (map h l) = map h (filter (fun a => f (h a)) l).
Proof.
  induction l as [|a l IH]; simpl; [reflexivity|].
  destruct (f (h a)); simpl; rewrite IH; reflexivity.
Qed.

Lemma recommendFromWebShop_fallback (key : bool) (grokReply : capability (list SelectedItem))
  (mergedResults : list SearchResult) (fundsCrypto : string) :
  source (recommendFromWebShop key grokReply mergedResults fundsCrypto) = webshop ->
  items (recommendFromWebShop key grokReply mergedResults fundsCrypto)
  = fallbackItems mergedResults (fundsOf fundsCrypto).
Proof.
  unfold recommendFromWebShop.
  destruct (if key && (0 <? List.length mergedResults)%nat
            then callGrokOnSearchResults key grokReply mergedResults else None)
    as [[|c cs]|]; simpl; try reflexivity. discriminate.
Qed.

(** X11.  When a reply's recommendation comes from the deterministic rule,
    every recommended item is a catalog result that one of the planned
    searches returned, copied with its id, name, price and link at quantity
    1, its price within the budget; there are at most eight items, their
    ids are non-empty and no id appears twice. *)
Theorem recommendChain_fallback_from_catalog (externalSearchLink : string -> string)
  (world : External) (prompt fundsCrypto : string) (forecastHorizon : Q) :
  let planned :=
    queryPlanner (queriesReply world) (parseReply world) forecastHorizon prompt in
  let r := recommendChain externalSearchLink world prompt fundsCrypto forecastHorizon in
  rec_source r = webshop ->
  (List.length (rec_items r) <= 8)%nat
  /\ NoDup (map si_asin (rec_items r))
  /\ Forall (fun i =>
       truthy (si_asin i) = true
       /\ leNum (unit_price i) (fundsOf fundsCrypto) = true
       /\ exists q c, In q planned
            /\ In c (resultsOf (callWebShopSearch world q))
            /\ i = fallbackItem c)
       (rec_items r).
Proof.
  cbv zeta. unfold recommendChain, queryPlanner.
  set (planned := planQueries _ _ prompt).
  destruct (dispatch_closed (callWebShopSearch world) planned) as [Ha _].
  destruct (allResults (dispatch (callWebShopSearch world) planned)) as [|r0 rs] eqn:Hall.
  { intros _. cbn [rec_items]. split; [simpl; lia|]. split; constructor. }
  cbn [rec_source rec_items]. intros Hs.
  rewrite (recommendFromWebShop_fallback _ _ _ _ Hs).
  set (merged := mergeSearchResults (r0 :: rs)).
  split; [apply fallbackItems_length|]. split.
  - unfold fallbackItems. rewrite filter_map_comm, map_map. cbn [fallbackItem si_asin].
    apply NoDup_map_filter. rewrite <- firstn_map. apply NoDup_firstn, merge_NoDup.
  - unfold fallbackItems. apply Forall_forall. intros i Hi.
    apply filter_In in Hi as [Hin Hle]. apply in_map_iff in Hin as [c [<- Hc]].
    apply firstn_incl in Hc. apply merge_In in Hc as [Hc Ht].
    split; [exact Ht|]. split; [exact Hle|].
    rewrite Ha in Hc. apply in_flat_map in Hc as [q [Hq Hc]].
    exists q, c. auto.
Qed.

Lemma recommendChain_fallback_from_catalog_witness :
  NoDup (map si_asin (rec_items (recommendChain shopLink cable_world "usb cable" "50" 30))).
Proof.
  apply (recommendChain_fallback_from_catalog shopLink cable_world "usb cable" "50" 30).
  reflexivity.
Defined.

Lemma first_occurrences_fresh (l : list SearchResult) :
  forall seen : list string,
    NoDup (map asin l) ->
    (forall a, In a seen -> ~ In a (map asin l)) ->
    first_occurrences seen l = l.
Proof.
  induction l as [|r l IH]; intros seen Hnd Hseen; simpl; [reflexivity|].
  inversion Hnd as [|x xs Hnin Hnd']; subst.
  destruct (existsb (String.eqb (asin r)) seen) eqn:E.
  - apply existsb_eqb_In in E. exfalso. apply (Hseen _ E). left. reflexivity.
  - f_equal. apply IH; [exact Hnd'|].
    intros a [<-|Ha]; [exact Hnin|].
    intros Hin. apply (Hseen a Ha). right. exact Hin.
Qed.

Lemma filter_all {A : Type} (f : A -> bool) (l : list A) :
  Forall (fun x => f x = true) l -> filter f l = l.
Proof.
  induction 1 as [|x l Hx _ IH]; simpl; [reflexivity|]. rewrite Hx, IH. reflexivity.
Qed.

(** X12.  mergeSearchResults leaves a list unchanged when its product ids
    are non-empty and pairwise distinct, so merging an already merged pool
    changes nothing. *)
Theorem mergeSearchResults_idempotent (l : list SearchResult) :
  (NoDup (map asin l) -> Forall (fun r => truthy (asin r) = true) l ->
   mergeSearchResults l = l)
  /\ mergeSearchResults (mergeSearchResults l) = mergeSearchResults l.
Proof.
  assert (Hfix : forall m, NoDup (map asin m) -> Forall (fun r => truthy (asin r) = true) m ->
                           mergeSearchResults m = m).
  { intros m Hnd Ht. rewrite merge_first_occurrences, (filter_all _ Ht).
    apply first_occurrences_fresh; [exact Hnd|]. intros a []. }
  split; [apply Hfix|].
  apply Hfix; [apply merge_NoDup|].
  apply Forall_forall. intros r Hr. apply (merge_In l r Hr).
Qed.

Lemma mergeSearchResults_idempotent_witness :
  mergeSearchResults [result_of "A1" 10; result_of "B2" 7]
  = [result_of "A1" 10; result_of "B2" 7].
Proof.
  apply (proj1 (mergeSearchResults_idempotent [result_of "A1" 10; result_of "B2" 7])).
  - repeat constructor; simpl; intuition discriminate.
  - repeat constructor.
Defined.






(* ================================================================== *)
(** ** The holiday shortcut *)

Lemma append_assoc (a b c : string) : ((a ++ b) ++ c = a ++ (b ++ c))%string.
Proof. induction a as [|x a IH]; simpl; [reflexivity|]. rewrite IH. reflexivity. Qed.

Lemma append_nil_r (a : string) : (a ++ "" = a)%string.
Proof. induction a as [|x a IH]; simpl; [reflexivity|]. rewrite IH. reflexivity. Qed.

Lemma stripPrefix_spec (p s rest : string) :
  stripPrefix p s = Some rest <-> s = (p ++ rest)%string.
Proof.
  revert s. induction p as [|a p IH]; intros s; simpl.
  - split; [intros [= ->]; reflexivity|intros ->; reflexivity].
  - destruct s as [|b s]; [split; discriminate|].
    destruct (Ascii.eqb a b) eqn:E.
    + apply Ascii.eqb_eq in E. subst b. rewrite IH. split; [intros ->; reflexivity|].
      intros [= ->]. reflexivity.
    + apply Ascii.eqb_neq in E. split; [discriminate|]. intros [= -> _]. congruence.
Qed.

Lemma prefix_stripPrefix (p s : string) :
  String.prefix p s = true <-> exists rest, stripPrefix p s = Some rest.
Proof.
  revert s. induction p as [|a p IH]; intros s.
  - destruct s; simpl; split; eauto.
  - destruct s as [|b s]; simpl; [split; [discriminate|intros [r H]; discriminate]|].
    destruct (ascii_dec a b) as [->|Hne].
    + rewrite Ascii.eqb_refl. apply IH.
    + replace (Ascii.eqb a b) with false by (symmetry; apply Ascii.eqb_neq; exact Hne).
      split; [discriminate|intros [r H]; discriminate].
Qed.

(** [s.includes(sub)] holds exactly when [sub] occurs in [s]. *)
Lemma includes_spec (s sub : string) :
  includes s sub = true <-> exists pre post, s = (pre ++ sub ++ post)%string.
Proof.
  induction s as [|c s IH].
  - cbn [includes]. rewrite orb_false_r, prefix_stripPrefix. split.
    + intros [rest H]. apply stripPrefix_spec in H. exists EmptyString, rest. exact H.
    + intros [pre [post H]]. destruct pre; [|discriminate].
      exists post. apply stripPrefix_spec. exact H.
  - cbn [includes]. rewrite orb_true_iff, prefix_stripPrefix, IH. split.
    + intros [[rest H]|[pre [post H]]].
      * apply stripPrefix_spec in H. exists EmptyString, rest. exact H.
      * exists (String c pre), post. rewrite H. reflexivity.
    + intros [[|x pre] [post H]].
      * left. exists post. apply stripPrefix_spec. exact H.
      * right. injection H as _ H. exists pre, post. exact H.
Qed.

Lemma wsStarK_sound (s : string) (k : string -> bool) :
  wsStarK s k = true ->
  exists m rest, s = (m ++ rest)%string /\ lang WsStar m /\ k rest = true.
Proof.
  induction s as [|c s IH]; cbn [wsStarK].
  - intros H. exists EmptyString, EmptyString. repeat split; [intros c []|exact H].
  - intros H. apply orb_true_iff in H as [H|H].
    + apply andb_true_iff in H as [Hc H]. destruct (IH H) as [m [rest [-> [Hm Hk]]]].
      exists (String c m), rest. repeat split; [|exact Hk].
      intros x [<-|Hx]; [exact Hc|apply Hm, Hx].
    + exists EmptyString, (String c s). repeat split; [intros x []|exact H].
Qed.

Lemma matchK_sound (r : regex) :
  forall (s : string) (k : string -> bool),
    matchK r s k = true ->
    exists m rest, s = (m ++ rest)%string /\ lang r m /\ k rest = true.
Proof.
  induction r as [text| |a IHa b IHb|a IHa b IHb|a IHa]; intros s k H; cbn [matchK] in H.
  - destruct (stripPrefix text s) as [rest|] eqn:E; [|discriminate].
    apply stripPrefix_spec in E. exists text, rest. repeat split; auto.
  - apply wsStarK_sound, H.
  - destruct (IHa _ _ H) as [m1 [rest1 [-> [H1 Hk1]]]].
    destruct (IHb _ _ Hk1) as [m2 [rest [-> [H2 Hk]]]].
    exists (m1 ++ m2)%string, rest. rewrite append_assoc. repeat split; [|exact Hk].
    exists m1, m2. auto.
  - apply orb_true_iff in H as [H|H].
    + destruct (IHa _ _ H) as [m [rest [-> [Hm Hk]]]]. exists m, rest. simpl. auto.
    + destruct (IHb _ _ H) as [m [rest [-> [Hm Hk]]]]. exists m, rest. simpl. auto.
  - apply orb_true_iff in H as [H|H].
    + destruct (IHa _ _ H) as [m [rest [-> [Hm Hk]]]]. exists m, rest. simpl. auto.
    + exists EmptyString, s. simpl. auto.
Qed.

(** A successful [test] finds a matched word somewhere in the string. *)
Lemma test_sound (r : regex) (s : string) :
  test r s = true -> exists pre m post, s = (pre ++ m ++ post)%string /\ lang r m.
Proof.
  induction s as [|c s IH]; cbn [test]; intros H.
  - rewrite orb_false_r in H. destruct (matchK_sound _ _ _ H) as [m [rest [-> [Hm _]]]].
    exists EmptyString, m, rest. auto.
  - apply orb_true_iff in H as [H|H].
    + destruct (matchK_sound _ _ _ H) as [m [rest [Hs [Hm _]]]].
      exists EmptyString, m, rest. auto.
    + destruct (IH H) as [pre [m [post [-> Hm]]]].
      exists (String c pre), m, post. auto.
Qed.

Lemma test_Lit (text s : string) : test (Lit text) s = includes s text.
Proof.
  induction s as [|c s IH]; cbn [test includes matchK].
  - f_equal. apply eq_iff_eq_true. rewrite prefix_stripPrefix.
    destruct (stripPrefix text ""); split; eauto; try discriminate.
    intros [r H]. discriminate.
  - rewrite IH. f_equal. apply eq_iff_eq_true. rewrite prefix_stripPrefix.
    destruct (stripPrefix text (String c s)); split; eauto; try discriminate.
    intros [r H]. discriminate.
Qed.

(** A word that occurs in a matched word occurs in the whole string. *)
Lemma includes_inside (s pre m post sub a b : string) :
  s = (pre ++ m ++ post)%string -> m = (a ++ sub ++ b)%string -> includes s sub = true.
Proof.
  intros -> ->. apply includes_spec. exists (pre ++ a)%string, (b ++ post)%string.
  rewrite !append_assoc. reflexivity.
Qed.

Lemma sellFastest_words (m : string) :
  lang sellFastestRe m ->
  (exists a b, m = (a ++ "sell" ++ b)%string) /\ (exists a b, m = (a ++ "fast" ++ b)%string).
Proof.
  intros [H|[H|H]].
  - destruct H as [m1 [m2 [-> [-> [w [m3 [-> [_ ->]]]]]]]]. split.
    + exists EmptyString, (w ++ "fastest")%string. reflexivity.
    + exists ("sell" ++ w)%string, "est"%string. rewrite !append_assoc. reflexivity.
  - destruct H as [m1 [m2 [-> [-> [w [m3 [-> [_ H]]]]]]]]. split.
    + destruct H as [-> | [t [m4 [-> [-> [w' [m5 [-> [_ ->]]]]]]]]].
      * exists ("fastest" ++ w)%string, "ing"%string. rewrite !append_assoc. reflexivity.
      * exists ("fastest" ++ w ++ "to" ++ w')%string, EmptyString.
        rewrite !append_assoc. reflexivity.
    + exists EmptyString, ("est" ++ w ++ m3)%string. reflexivity.
  - simpl in H. subst m. split.
    + exists "what would "%string, " fastest"%string. reflexivity.
    + exists "what would sell "%string, "est"%string. reflexivity.
Qed.

Lemma exactHoliday_words (m : string) :
  lang exactHolidayRe m ->
  (exists a b, m = (a ++ "holiday" ++ b)%string)
  /\ (exists a b, m = (a ++ "sell" ++ b)%string)
  /\ (exists a b, m = (a ++ "fast" ++ b)%string).
Proof.
  intros [m1 [m2 [-> [-> _]]]]. repeat split.
  - exists "what would sell fastest on "%string, m2. reflexivity.
  - exists "what would "%string, (" fastest on holiday" ++ m2)%string. reflexivity.
  - exists "what would sell "%string, ("est on holiday" ++ m2)%string. reflexivity.
Qed.

(** X15.  The holiday shortcut is taken exactly when the lower-cased,
    trimmed request contains the three words "holiday", "sell" and "fast";
    the exact-phrase test and the regular expressions add nothing to that. *)
Theorem isHolidaySellPrompt_three_words (prompt : string) :
  let promptLower := trim (toLowerCase prompt) in
  isHolidaySellPrompt prompt
  = includes promptLower "holiday" && includes promptLower "sell"
    && includes promptLower "fast".
Proof.
  cbv zeta. unfold isHolidaySellPrompt. set (p := trim (toLowerCase prompt)).
  unfold holidayRe. rewrite test_Lit.
  assert (Hexact : String.eqb p "what would sell fastest on holidays" = true
                   \/ test exactHolidayRe p = true ->
                   includes p "holiday" = true /\ includes p "sell" = true
                   /\ includes p "fast" = true).
  { intros [H|H].
    - apply String.eqb_eq in H. rewrite H. repeat split; reflexivity.
    - destruct (test_sound _ _ H) as [pre [m [post [Hs Hm]]]].
      destruct (@exactHoliday_words m Hm) as [[a1 [b1 H1]] [[a2 [b2 H2]] [a3 [b3 H3]]]].
      repeat split; eapply includes_inside; eauto. }
  assert (Hre : test sellFastestRe p = true ->
                includes p "sell" = true /\ includes p "fast" = true).
  { intros H. destruct (test_sound _ _ H) as [pre [m [post [Hs Hm]]]].
    destruct (@sellFastest_words m Hm) as [[a2 [b2 H2]] [a3 [b3 H3]]].
    split; eapply includes_inside; eauto. }
  assert (Hfastest : includes p "fastest" = true -> includes p "fast" = true).
  { intros H. apply includes_spec in H as [pre [post ->]].
    apply includes_spec. exists pre, ("est" ++ post)%string. reflexivity. }
  destruct (String.eqb p "what would sell fastest on holidays") eqn:E1;
  destruct (test exactHolidayRe p) eqn:E2;
  destruct (test sellFastestRe p) eqn:E3;
  destruct (includes p "fastest") eqn:E4;
  destruct (includes p "holiday") eqn:E5;
  destruct (includes p "sell") eqn:E6;
  destruct (includes p "fast") eqn:E7;
  try reflexivity; exfalso;
  try (destruct Hexact as [? [? ?]]; [auto; fail|congruence]);
  try (destruct Hre as [? ?]; [auto; fail|congruence]);
  try (specialize (Hfastest eq_refl); congruence).
Qed.

Example isHolidaySellPrompt_examples :
  isHolidaySellPrompt "What would sell FASTEST on holidays?" = true
  /\ isHolidaySellPrompt "fast sellers for the holidays" = true
  /\ isHolidaySellPrompt "holiday gifts" = false
  /\ isHolidaySellPrompt "breakfast bar: sell-by dates and holiday hours" = true
  /\ test sellFastestRe "fastest   to  sell" = true
  /\ test sellFastestRe "fastest tosell" = true
  /\ test sellFastestRe "fast selling" = false.
Proof. repeat split. Qed.

(* ================================================================== *)
(** ** The web-search fallback *)

Lemma append_inv_head (a b c : string) : (a ++ b = a ++ c)%string -> b = c.
Proof.
  induction a as [|x a IH]; simpl; intros H; [exact H|].
  injection H as H. apply IH, H.
Qed.

Lemma hexDigit_unreserved (n : nat) :
  (n < 16)%nat -> WebSearch.isUnreserved (WebSearch.hexDigit n) = true.
Proof.
  intros H. do 16 (destruct n as [|n]; [reflexivity|]). lia.
Qed.

Lemma hexDigit_inj (n m : nat) :
  (n < 16)%nat -> (m < 16)%nat -> WebSearch.hexDigit n = WebSearch.hexDigit m -> n = m.
Proof.
  intros Hn Hm H.
  do 16 (destruct n as [|n]; [do 16 (destruct m as [|m]; [reflexivity || discriminate H|]); lia|]).
  lia.
Qed.

Lemma percent_reserved : WebSearch.isUnreserved "%"%char = false.
Proof. reflexivity. Qed.

Lemma nat_of_ascii_lt (c : ascii) : (nat_of_ascii c < 256)%nat.
Proof. apply nat_ascii_bounded. Qed.

Lemma encodeURIComponent_safe (s : string) :
  Forall (fun c => WebSearch.isUnreserved c = true \/ c = "%"%char)
    (list_ascii_of_string (WebSearch.encodeURIComponent s)).
Proof.
  induction s as [|c s IH]; cbn [WebSearch.encodeURIComponent]; [constructor|].
  destruct (WebSearch.isUnreserved c) eqn:E; cbn [list_ascii_of_string].
  - constructor; [left; exact E|exact IH].
  - pose proof (nat_of_ascii_lt c) as Hc.
    constructor; [right; reflexivity|].
    constructor; [left; apply hexDigit_unreserved, Nat.Div0.div_lt_upper_bound; lia|].
    constructor; [left; apply hexDigit_unreserved, Nat.mod_upper_bound; lia|exact IH].
Qed.

Lemma encodeURIComponent_inj (s1 : string) :
  forall s2 : string,
    WebSearch.encodeURIComponent s1 = WebSearch.encodeURIComponent s2 -> s1 = s2.
Proof.
  induction s1 as [|c1 s1 IH]; intros [|c2 s2]; cbn [WebSearch.encodeURIComponent].
  - reflexivity.
  - destruct (WebSearch.isUnreserved c2); discriminate.
  - destruct (WebSearch.isUnreserved c1); discriminate.
  - destruct (WebSearch.isUnreserved c1) eqn:E1; destruct (WebSearch.isUnreserved c2) eqn:E2.
    + intros [= -> H]. f_equal. apply IH, H.
    + intros [= -> _]. rewrite percent_reserved in E1. discriminate.
    + intros [= <- _]. rewrite percent_reserved in E2. discriminate.
    + pose proof (nat_of_ascii_lt c1) as B1. pose proof (nat_of_ascii_lt c2) as B2.
      pose proof (Nat.div_mod_eq (nat_of_ascii c1) 16) as D1.
      pose proof (Nat.div_mod_eq (nat_of_ascii c2) 16) as D2.
      assert (Hh1 : (nat_of_ascii c1 / 16 < 16)%nat)
        by (apply Nat.Div0.div_lt_upper_bound; lia).
      assert (Hh2 : (nat_of_ascii c2 / 16 < 16)%nat)
        by (apply Nat.Div0.div_lt_upper_bound; lia).
      assert (Hl1 : (nat_of_ascii c1 mod 16 < 16)%nat) by (apply Nat.mod_upper_bound; lia).
      assert (Hl2 : (nat_of_ascii c2 mod 16 < 16)%nat) by (apply Nat.mod_upper_bound; lia).
      remember (nat_of_ascii c1 / 16)%nat as h1. remember (nat_of_ascii c1 mod 16)%nat as l1.
      remember (nat_of_ascii c2 / 16)%nat as h2. remember (nat_of_ascii c2 mod 16)%nat as l2.
      intros [= Hhi Hlo H].
      apply hexDigit_inj in Hhi; [|assumption|assumption].
      apply hexDigit_inj in Hlo; [|assumption|assumption].
      assert (Hn : nat_of_ascii c1 = nat_of_ascii c2) by (rewrite D1, D2, Hhi, Hlo; reflexivity).
      f_equal; [|apply IH, H].
      rewrite <- (ascii_nat_embedding c1), <- (ascii_nat_embedding c2), Hn. reflexivity.
Qed.

(** X16.  externalSearchLink returns the configured base, an equals sign
    and the percent-encoded query: the encoded part consists only of
    letters, digits, the marks - _ . ! ~ * ' ( ) and percent signs, white
    space around the query is ignored, and two queries get the same link
    only when they are equal after trimming. *)
Theorem externalSearchLink_encoding (base query : string) :
  (exists encoded,
      WebSearch.externalSearchLink base query = (base ++ "=" ++ encoded)%string
      /\ Forall (fun c => WebSearch.isUnreserved c = true \/ c = "%"%char)
           (list_ascii_of_string encoded))
  /\ WebSearch.externalSearchLink base (trim query) = WebSearch.externalSearchLink base query
  /\ forall query2,
       WebSearch.externalSearchLink base query = WebSearch.externalSearchLink base query2 ->
       trim query = trim query2.
Proof.
  unfold WebSearch.externalSearchLink. split; [|split].
  - exists (WebSearch.encodeURIComponent (trim query)).
    split; [reflexivity|apply encodeURIComponent_safe].
  - rewrite trim_idem. reflexivity.
  - intros query2 H. apply append_inv_head in H. injection H as H.
    apply encodeURIComponent_inj, H.
Qed.

Lemma externalSearchLink_encoding_witness :
  trim " usb cable " = trim "usb cable".
Proof.
  apply (proj2 (proj2 (externalSearchLink_encoding WebSearch.defaultSearchBase " usb cable "))
           "usb cable"%string).
  reflexivity.
Defined.

Lemma substring_length_le (n : nat) :
  forall s : string, (String.length (substring 0 n s) <= n)%nat.
Proof.
  induction n as [|n IH]; intros [|c s]; simpl; try lia.
  specialize (IH s). lia.
Qed.

(** X17.  runExternalSearch returns nothing for a blank query; for any other
    query, asked for at least one result, it never returns an empty list:
    it returns the Amazon results when there are any, otherwise at most
    maxResults web results, none with a price field and each with a snippet
    of at most 160 characters, and when the web search also fails or finds
    nothing exactly one synthesized result that links to the external
    search page for the trimmed query. *)
Theorem runExternalSearch_never_empty (base : string)
  (amazon : capability (list RawResult)) (ddg : capability WebSearch.DdgReply)
  (query : string) (maxResults : nat) :
  let found := WebSearch.runExternalSearch base amazon ddg query maxResults in
  (trim query = EmptyString -> found = [])
  /\ (trim query <> EmptyString ->
      ((1 <= maxResults)%nat -> found <> [])
      /\ (forall a l, amazon = Some (a :: l) -> found = a :: l)
      /\ (amazon = None \/ amazon = Some [] ->
          (List.length found <= Nat.max 1 maxResults)%nat
          /\ Forall (fun r => raw_price r = None /\ (String.length (snippet r) <= 160)%nat)
               found)
      /\ (amazon = None \/ amazon = Some [] ->
          ddg = None
          \/ (exists res, ddg = Some res
                /\ (WebSearch.ddg_noResults res = true
                    \/ WebSearch.ddg_results res = None
                    \/ WebSearch.ddg_results res = Some [])) ->
          exists r, found = [r]
                    /\ raw_link r = WebSearch.externalSearchLink base (trim query))).
Proof.
  cbv zeta. unfold WebSearch.runExternalSearch.
  assert (Hfb : forall q,
            WebSearch.fallbackResult base q <> []
            /\ (List.length (WebSearch.fallbackResult base q) <= Nat.max 1 maxResults)%nat
            /\ Forall (fun r => raw_price r = None /\ (String.length (snippet r) <= 160)%nat)
                 (WebSearch.fallbackResult base q)
            /\ exists r, WebSearch.fallbackResult base q = [r]
                         /\ raw_link r = WebSearch.externalSearchLink base q).
  { intros q. unfold WebSearch.fallbackResult. split; [discriminate|].
    split; [cbn [List.length]; lia|]. split.
    - constructor; [|constructor]. split; [reflexivity|]. apply Nat.leb_le. reflexivity.
    - eexists. split; reflexivity. }
  split.
  - intros ->. reflexivity.
  - intros Hq. destruct (trim query) as [|c s] eqn:Eq; [congruence|]. cbn [truthy negb].
    set (q := String c s) in *.
    destruct (Hfb q) as [F1 [F2 [F3 F4]]].
    assert (Hddg : forall rs : list WebSearch.DdgResult,
              (List.length (map WebSearch.ddgToRaw (firstn maxResults rs))
               <= Nat.max 1 maxResults)%nat
              /\ Forall (fun r => raw_price r = None /\ (String.length (snippet r) <= 160)%nat)
                   (map WebSearch.ddgToRaw (firstn maxResults rs))).
    { intros rs. split.
      - rewrite length_map, length_firstn. lia.
      - apply Forall_map, Forall_forall. intros r _. split; [reflexivity|].
        apply substring_length_le. }
    split; [|split; [|split]].
    + intros Hmax. destruct amazon as [[|a l]|]; try discriminate.
      * destruct ddg as [res|]; [|exact F1].
        destruct (WebSearch.ddg_noResults res); [exact F1|].
        destruct (WebSearch.ddg_results res) as [[|r rs]|]; try exact F1.
        destruct maxResults; [lia|]. discriminate.
      * destruct ddg as [res|]; [|exact F1].
        destruct (WebSearch.ddg_noResults res); [exact F1|].
        destruct (WebSearch.ddg_results res) as [[|r rs]|]; try exact F1.
        destruct maxResults; [lia|]. discriminate.
    + intros a l ->. reflexivity.
    + intros [-> | ->].
      * destruct ddg as [res|]; [|auto].
        destruct (WebSearch.ddg_noResults res); [auto|].
        destruct (WebSearch.ddg_results res) as [[|r rs]|]; auto.
      * destruct ddg as [res|]; [|auto].
        destruct (WebSearch.ddg_noResults res); [auto|].
        destruct (WebSearch.ddg_results res) as [[|r rs]|]; auto.
    + intros Ham Hd.
      destruct Ham as [-> | ->];
        (destruct Hd as [-> | [res [-> [Hn | [Hr | Hr]]]]];
         [exact F4
         |rewrite Hn; exact F4
         |rewrite Hr; destruct (WebSearch.ddg_noResults res); exact F4
         |rewrite Hr; destruct (WebSearch.ddg_noResults res); exact F4]).
Qed.

Lemma runExternalSearch_never_empty_witness :
  WebSearch.runExternalSearch WebSearch.defaultSearchBase None None "usb cable" 5 <> [].
Proof.
  apply (proj1 (proj2 (runExternalSearch_never_empty WebSearch.defaultSearchBase None None
                         "usb cable" 5) ltac:(discriminate))).
  lia.
Defined.

Lemma externalSearchLink_truthy (base query : string) :
  truthy (WebSearch.externalSearchLink base query) = true.
Proof.
  unfold WebSearch.externalSearchLink. induction base as [|c base IH]; reflexivity.
Qed.

Lemma orStr_truthy (a b : string) : truthy (orStr a b) = truthy a || truthy b.
Proof. unfold orStr. destruct (truthy a) eqn:E; [exact E|reflexivity]. Qed.

Lemma unfoundLoop_steps (externalSearchLink : string -> string)
  (rawSearches : list (list RawResult)) (queries : list string) :
  forall (i : nat) (remaining : Q) (items : list UnfoundItem),
    exists pushed,
      snd (unfoundLoop externalSearchLink rawSearches queries i remaining items)
      = items ++ pushed
      /\ Forall (fun item => exists rem q batch,
                   In q queries
                   /\ item = snd (unfoundStep externalSearchLink rem q batch))
           pushed.
Proof.
  induction queries as [|q queries IH]; intros i remaining items; cbn [unfoundLoop].
  - exists []. rewrite app_nil_r. split; [reflexivity|constructor].
  - destruct (unfoundStep externalSearchLink remaining q (nth i rawSearches []))
      as [r' item] eqn:Hstep.
    destruct (IH (S i) r' (items ++ [item])) as [pushed [Hp Hall]].
    exists (item :: pushed). rewrite Hp, <- app_assoc. split; [reflexivity|].
    constructor.
    + exists remaining, q, (nth i rawSearches []). rewrite Hstep. split; [left|]; reflexivity.
    + eapply Forall_impl; [|exact Hall]. intros it [rem [q' [batch [Hin Hit]]]].
      exists rem, q', batch. split; [right; exact Hin|exact Hit].
Qed.

(** X18.  With the real external-search link, every unfound item carries a
    non-empty link, and a non-empty product name whenever its query is not
    empty. *)
Theorem buildUnfoundItems_always_linked (base : string) (unfoundQueries : list string)
  (rawSearches : list (list RawResult)) (budgetForQuantity : jsnum) :
  Forall (fun item =>
            truthy (uf_link item) = true
            /\ (truthy (uf_query item) = true -> truthy (uf_product_name item) = true))
    (buildUnfoundItems (WebSearch.externalSearchLink base) unfoundQueries rawSearches
       budgetForQuantity).
Proof.
  unfold buildUnfoundItems, buildUnfoundState.
  destruct (unfoundLoop_steps (WebSearch.externalSearchLink base) rawSearches unfoundQueries
              0 (startingPool budgetForQuantity) []) as [pushed [Hp Hall]].
  cbn [app] in Hp. rewrite Hp.
  eapply Forall_impl; [|exact Hall]. intros item [rem [q [batch [_ ->]]]].
  unfold unfoundStep. cbn [snd uf_link uf_query uf_product_name].
  rewrite !orStr_truthy, externalSearchLink_truthy. split.
  - apply orb_true_r.
  - intros ->. apply orb_true_r.
Qed.

(* ================================================================== *)
(** ** Price extraction *)


Lemma matchPrice_no_dollar (text : string) :
  includes text "$" = false -> matchPrice text = None.
Proof.
  induction text as [|c text IH]; [reflexivity|].
  cbn [includes matchPrice]. intros H. apply orb_false_iff in H as [Hp Hi].
  destruct (Ascii.eqb c "$") eqn:E.
  - apply Ascii.eqb_eq in E. subst c. destruct text; simpl in Hp; discriminate.
  - apply IH, Hi.
Qed.

Lemma matchAmount_head (s m : string) :
  matchAmount s = Some m ->
  exists d rest, s = String d rest /\ isDigitOrComma d = true.
Proof.
  unfold matchAmount. destruct s as [|d rest]; [discriminate|].
  simpl. destruct (isDigitOrComma d) eqn:E; [|discriminate].
  intros _. exists d, rest. auto.
Qed.

Lemma matchPrice_found (text m : string) :
  matchPrice text = Some m ->
  exists pre d rest,
    text = (pre ++ "$" ++ String d rest)%string /\ isDigitOrComma d = true.
Proof.
  induction text as [|c text IH]; [discriminate|].
  cbn [matchPrice]. destruct (Ascii.eqb c "$") eqn:E.
  - apply Ascii.eqb_eq in E. subst c.
    destruct (matchAmount text) as [m'|] eqn:Hm.
    + intros _. destruct (matchAmount_head _ Hm) as [d [rest [-> Hd]]].
      exists EmptyString, d, rest. auto.
    + intros H. destruct (IH H) as [pre [d [rest [-> Hd]]]].
      exists (String "$" pre), d, rest. auto.
  - intros H. destruct (IH H) as [pre [d [rest [-> Hd]]]].
    exists (String c pre), d, rest. auto.
Qed.

(** X19.  parsePriceFromText never returns zero or a negative price, and it
    returns a price only for a text in which some dollar sign is directly
    followed by a digit or a comma; in particular a text without a dollar
    sign, and the empty text, give no price. *)
Theorem parsePriceFromText_needs_dollar (text : string) :
  (forall p, parsePriceFromText text = Some p ->
     0 < p
     /\ exists pre d rest,
          text = (pre ++ "$" ++ String d rest)%string /\ isDigitOrComma d = true)
  /\ (includes text "$" = false -> parsePriceFromText text = None).
Proof.
  split.
  - intros p H. split; [apply (parsePriceFromText_pos text H)|].
    unfold parsePriceFromText in H. destruct (truthy text); [|discriminate].
    destruct (matchPrice text) as [m|] eqn:Hm; [|discriminate].
    apply (matchPrice_found _ Hm).
  - intros H. unfold parsePriceFromText. rewrite (matchPrice_no_dollar _ H).
    destruct (truthy text); reflexivity.
Qed.

Lemma parsePriceFromText_needs_dollar_witness :
  parsePriceFromText "free shipping" = None.
Proof.
  apply (proj2 (parsePriceFromText_needs_dollar "free shipping")). reflexivity.
Defined.










(* ================================================================== *)
(** ** The restock schedule *)

Lemma Set_has_add (s : JsSet) (x y : string) :
  Set_has (Set_add s x) y = Set_has s y || String.eqb y x.
Proof.
  unfold Set_add. destruct (Set_has s x) eqn:E.
  - destruct (String.eqb y x) eqn:Eq; [|rewrite orb_false_r; reflexivity].
    apply String.eqb_eq in Eq. subst y. rewrite E. reflexivity.
  - unfold Set_has. rewrite existsb_app. simpl. rewrite orb_false_r. reflexivity.
Qed.

Lemma restockStep_cancelled (st : RestockState) (a : RestockAction) (x : string) :
  Set_has (cancelled st) x = true -> Set_has (cancelled (restockStep st a)) x = true.
Proof.
  intros H. destruct a as [asin val|asin|asin]; simpl; try exact H.
  rewrite Set_has_add, H. reflexivity.
Qed.

Lemma restockRun_cancelled (actions : list RestockAction) :
  forall (st : RestockState) (x : string),
    Set_has (cancelled st) x = true -> Set_has (cancelled (restockRun st actions)) x = true.
Proof.
  induction actions as [|a actions IH]; intros st x H; [exact H|].
  apply IH, restockStep_cancelled, H.
Qed.

Lemma filter_filter {A : Type} (f g : A -> bool) (l : list A) :
  filter f (filter g l) = filter (fun x => g x && f x) l.
Proof.
  induction l as [|a l IH]; simpl; [reflexivity|].
  destruct (g a); simpl; [|exact IH]. destruct (f a); rewrite IH; reflexivity.
Qed.

(** X21.  Cancelling a scheduled restock removes exactly the entries of that
    product and leaves every other entry as it was, and the cancellation is
    permanent: whatever the user does afterwards - changing quantities,
    approving, cancelling others - the product does not come back. *)
Theorem handleCancel_permanent (st : RestockState) (priceByAsin : JsMap Q)
  (products : list RestockCandidate) (asin : string) (later : list RestockAction) :
  restockItems (handleCancel st asin) priceByAsin products
  = filter (fun item => negb (String.eqb (rc_asin (ri_product item)) asin))
      (restockItems st priceByAsin products)
  /\ Forall (fun item => rc_asin (ri_product item) <> asin)
       (restockItems (restockRun (handleCancel st asin) later) priceByAsin products).
Proof.
  split.
  - unfold restockItems. rewrite filter_map_comm. cbn [ri_product restockItemOf].
    rewrite filter_filter.
    assert (Hf : forall p,
              (match rc_days_until_reorder p with Some _ => true | None => false end
               && negb (Set_has (cancelled (handleCancel st asin)) (rc_asin p)))
              = (match rc_days_until_reorder p with Some _ => true | None => false end
                 && negb (Set_has (cancelled st) (rc_asin p)))
                && negb (String.eqb (rc_asin p) asin)).
    { intros p. cbn [handleCancel cancelled]. rewrite Set_has_add, negb_orb.
      apply andb_assoc. }
    rewrite (filter_ext _ _ Hf). apply map_ext_in. intros p _. reflexivity.
  - unfold restockItems. apply Forall_map, Forall_forall. intros p Hp.
    apply filter_In in Hp as [_ Hp]. apply andb_true_iff in Hp as [_ Hp].
    cbn [ri_product restockItemOf]. intros Heq.
    assert (Hc : Set_has (cancelled (restockRun (handleCancel st asin) later)) asin = true).
    { apply restockRun_cancelled. cbn [handleCancel cancelled].
      rewrite Set_has_add, String.eqb_refl. apply orb_true_r. }
    rewrite Heq, Hc in Hp. discriminate.
Qed.


Example restockItems_example :
  let products :=
    [ {| rc_asin := "A1"; rc_reorder_qty := Some 20; rc_days_until_reorder := Some 3%Z |};
      {| rc_asin := "B2"; rc_reorder_qty := Some 5; rc_days_until_reorder := None |};
      {| rc_asin := "C3"; rc_reorder_qty := None; rc_days_until_reorder := Some 1%Z |} ]%string in
  let prices := priceByAsinOf [("A1", 4); ("C3", 0); ("A1", 6)]%string in
  let st0 := {| cancelled := []; quantityOverride := []; approvedRestocks := [] |} in
  map (fun i => (rc_asin (ri_product i), restockQty i, restockLineTotal i))
    (restockItems st0 prices products)
  = [("A1", Some 20, Some (20 * 6)); ("C3", Some 1, Some (1 * 0))]%string
  /\ map (fun i => (rc_asin (ri_product i), restockQty i))
       (restockItems (restockRun st0 [DoSetQty "A1" "7"; DoCancel "C3"; DoSetQty "C3" "2"])
          prices products)
     = [("A1", Some (inject_Z 7))]%string
  /\ map restockLineTotal
       (restockItems st0 prices
          [ {| rc_asin := "toString"; rc_reorder_qty := Some 2;
               rc_days_until_reorder := Some 1%Z |} ])
     = [None].
Proof. repeat split; reflexivity. Qed.

(* ================================================================== *)
(** ** The inventory file *)

Lemma splitOn_length (sep : ascii) (s : string) :
  List.length (splitOn sep s) = S (countChar sep s).
Proof.
  induction s as [|c s IH]; simpl; [reflexivity|].
  destruct (Ascii.eqb c sep); simpl; [rewrite IH; reflexivity|].
  destruct (splitOn sep s) as [|h t]; simpl in *; [discriminate|exact IH].
Qed.

Lemma Map_get_keys {V : Type} (m : JsMap V) (k : string) :
  (exists v, Map_get m k = Some v) <-> In k (map fst m).
Proof.
  induction m as [|[k' v'] m IH]; simpl.
  - split; [intros [v H]; discriminate|intros []].
  - destruct (String.eqb k' k) eqn:E.
    + apply String.eqb_eq in E. split; [intros _; left; exact E|intros _; eauto].
    + apply String.eqb_neq in E. rewrite IH. split; [intros H; right; exact H|].
      intros [H|H]; [congruence|exact H].
Qed.

Lemma csvFill_keys (values header : list string) :
  forall (j : nat) (row : JsMap string) (k : string),
    (exists v, Map_get (csvFill values header j row) k = Some v)
    <-> (In k (map trim header) /\ k <> "__proto__"%string)
        \/ (exists v, Map_get row k = Some v).
Proof.
  induction header as [|h header IH]; intros j row k; simpl.
  - split; [intros H; right; exact H|intros [[[] _]|H]; exact H].
  - rewrite IH. destruct (String.eqb (trim h) "__proto__") eqn:P.
    + apply String.eqb_eq in P. split.
      * intros [[H1 H2]|H]; [left; split; [right; exact H1|exact H2]|right; exact H].
      * intros [[[H1|H1] H2]|H]; [congruence|left; split; assumption|right; exact H].
    + apply String.eqb_neq in P. rewrite Map_get_set.
      destruct (String.eqb (trim h) k) eqn:E.
      * apply String.eqb_eq in E.
        split; [intros _; left; split; [left; exact E|congruence]|intros _; right; eauto].
      * apply String.eqb_neq in E. split.
        -- intros [[H1 H2]|H]; [left; split; [right; exact H1|exact H2]|right; exact H].
        -- intros [[[H1|H1] H2]|H]; [congruence|left; split; assumption|right; exact H].
Qed.

Lemma csvCell_trimmed (values : list string) (j : nat) : trimmed (csvCell values j).
Proof.
  unfold csvCell, trimmed. destruct (nth_error values j); [apply trim_idem|reflexivity].
Qed.

Lemma csvFill_values (values header : list string) :
  forall (j : nat) (row : JsMap string),
    (forall k v, Map_get row k = Some v -> trimmed v) ->
    forall k v, Map_get (csvFill values header j row) k = Some v -> trimmed v.
Proof.
  induction header as [|h header IH]; intros j row Hrow k v; simpl; [apply Hrow|].
  apply IH. intros k' v'. destruct (String.eqb (trim h) "__proto__"); [apply Hrow|].
  rewrite Map_get_set.
  destruct (String.eqb (trim h) k'); [intros [= <-]; apply csvCell_trimmed|apply Hrow].
Qed.

Lemma csvFill_other (values header : list string) :
  forall (j : nat) (row : JsMap string) (k : string),
    ~ In k (map trim header) ->
    Map_get (csvFill values header j row) k = Map_get row k.
Proof.
  induction header as [|h header IH]; intros j row k Hk; simpl; [reflexivity|].
  simpl in Hk. rewrite IH by tauto.
  destruct (String.eqb (trim h) "__proto__"); [reflexivity|]. rewrite Map_get_set.
  destruct (String.eqb (trim h) k) eqn:E; [|reflexivity].
  apply String.eqb_eq in E. tauto.
Qed.

Lemma csvFill_column (values header : list string) :
  forall (j : nat) (row : JsMap string) (i : nat) (h : string),
    NoDup (map trim header) ->
    nth_error header i = Some h ->
    trim h <> "__proto__"%string ->
    Map_get (csvFill values header j row) (trim h) = Some (csvCell values (j + i)).
Proof.
  induction header as [|h0 header IH]; intros j row i h Hnd Hi Hp; [destruct i; discriminate|].
  simpl in Hnd. inversion Hnd as [|x xs Hnin Hnd']; subst.
  destruct i as [|i]; simpl in Hi.
  - injection Hi as ->. simpl. rewrite csvFill_other by exact Hnin.
    apply String.eqb_neq in Hp. rewrite Hp.
    rewrite Map_get_set, String.eqb_refl, Nat.add_0_r. reflexivity.
  - simpl. rewrite (IH (S j) _ i h Hnd' Hi Hp). f_equal. f_equal. lia.
Qed.

(** X23.  parseCSV returns one row per line after the header - as many rows
    as the trimmed text has line feeds; every row has a value for exactly
    the trimmed header names (a column named __proto__ is lost), every
    value is trimmed, and when the trimmed header names are distinct the
    value of a column is the trimmed field at that position of the line, or
    the empty string when the line is too short. *)
Theorem parseCSV_rows (text : string) :
  let lines := splitOn newline (trim text) in
  let header := splitOn "," (hd EmptyString lines) in
  List.length (parseCSV text) = countChar newline (trim text)
  /\ Forall (fun row =>
       (forall k, (exists v, Map_get row k = Some v)
                  <-> In k (map trim header) /\ k <> "__proto__"%string)
       /\ (forall k v, Map_get row k = Some v -> trimmed v))
       (parseCSV text)
  /\ (NoDup (map trim header) ->
      forall (i : nat) (line : string),
        nth_error (tl lines) i = Some line ->
        exists row,
          nth_error (parseCSV text) i = Some row
          /\ forall (j : nat) (h : string),
               nth_error header j = Some h ->
               trim h <> "__proto__"%string ->
               Map_get row (trim h) = Some (csvCell (splitOn "," line) j)).
Proof.
  cbv zeta. unfold parseCSV.
  set (lines := splitOn newline (trim text)).
  set (header := splitOn "," (hd EmptyString lines)).
  split; [|split].
  - rewrite length_map. pose proof (splitOn_length newline (trim text)) as H.
    fold lines in H. destruct lines; simpl in *; lia.
  - apply Forall_map, Forall_forall. intros line _. unfold csvRow. split.
    + intros k. rewrite csvFill_keys. split; [intros [H|[v H]]; [exact H|discriminate]|].
      intros H. left. exact H.
    + apply csvFill_values. intros k v H. discriminate.
  - intros Hnd i line Hi. exists (csvRow header line).
    split; [rewrite nth_error_map, Hi; reflexivity|].
    intros j h Hj Hp. unfold csvRow.
    apply (@csvFill_column (splitOn "," line) header 0%nat [] j h Hnd Hj Hp).
Qed.

Lemma parseCSV_rows_witness :
  exists row,
    nth_error (parseCSV inventory_csv) 1 = Some row
    /\ Map_get row "date" = Some "2024-01-03"%string.
Proof.
  destruct (proj2 (proj2 (parseCSV_rows inventory_csv))) with (i := 1%nat)
    (line := "A1,2024-01-03,3,9.99"%string) as [row [Hrow Hcol]].
  - vm_compute. repeat constructor; simpl; intuition discriminate.
  - reflexivity.
  - exists row. split; [exact Hrow|].
    apply (Hcol 1%nat " date "%string); [reflexivity|discriminate].
Defined.

Lemma ascii_compare_lt_trans (a b c : ascii) :
  Ascii.compare a b = Lt -> Ascii.compare b c = Lt -> Ascii.compare a c = Lt.
Proof.
  unfold Ascii.compare. rewrite !N.compare_lt_iff. lia.
Qed.

Lemma string_compare_lt_trans (a : string) :
  forall b c : string,
    String.compare a b = Lt -> String.compare b c = Lt -> String.compare a c = Lt.
Proof.
  induction a as [|x a IH]; intros [|y b] [|z c]; simpl; try discriminate; try reflexivity.
  destruct (Ascii.compare x y) eqn:Exy; try discriminate.
  - apply Ascii.compare_eq_iff in Exy. subst y.
    destruct (Ascii.compare x z); try discriminate; [apply IH|reflexivity].
  - destruct (Ascii.compare y z) eqn:Eyz; try discriminate.
    + apply Ascii.compare_eq_iff in Eyz. subst z. rewrite Exy. reflexivity.
    + rewrite (ascii_compare_lt_trans _ _ _ Exy Eyz). reflexivity.
Qed.

Lemma ltb_trans (a b c : string) :
  String.ltb a b = true -> String.ltb b c = true -> String.ltb a c = true.
Proof.
  unfold String.ltb. intros H1 H2.
  destruct (String.compare a b) eqn:E1; try discriminate.
  destruct (String.compare b c) eqn:E2; try discriminate.
  rewrite (string_compare_lt_trans _ _ _ E1 E2). reflexivity.
Qed.

Lemma ltb_irrefl (a : string) : String.ltb a a = false.
Proof.
  unfold String.ltb. pose proof (String.compare_antisym a a) as H.
  destruct (String.compare a a); try reflexivity; discriminate.
Qed.

(** Nothing that was not later than the kept date is later than a date
    that replaced it. *)
Lemma gtStr_replaced (a kept new : option string) :
  gtStr a kept = false -> gtStr new kept = true -> gtStr a new = false.
Proof.
  destruct a as [a|], kept as [k|], new as [n|]; simpl; try discriminate; try reflexivity.
  intros Hak Hkn. destruct (String.ltb n a) eqn:E; [|reflexivity].
  rewrite (ltb_trans _ _ _ Hkn E) in Hak. discriminate.
Qed.

Lemma gtStr_irrefl (a : option string) : gtStr a a = false.
Proof. destruct a; [apply ltb_irrefl|reflexivity]. Qed.

Lemma Map_set_keys {V : Type} (m : JsMap V) (k : string) (v : V) :
  map fst (Map_set m k v)
  = if Map_has m k then map fst m else map fst m ++ [k].
Proof.
  induction m as [|[k' v'] m IH]; simpl; [reflexivity|].
  unfold Map_has in *. simpl. destruct (String.eqb k' k) eqn:E; simpl; [reflexivity|].
  rewrite IH. destruct (existsb _ m); reflexivity.
Qed.

Lemma Map_set_NoDup {V : Type} (m : JsMap V) (k : string) (v : V) :
  NoDup (map fst m) -> NoDup (map fst (Map_set m k v)).
Proof.
  intros H. rewrite Map_set_keys. destruct (Map_has m k) eqn:E; [exact H|].
  apply NoDup_app; [exact H|repeat constructor; intros []|].
  intros a Ha [<-|[]]. apply Map_has_In in Ha. congruence.
Qed.

Lemma Map_values_get {V : Type} (m : JsMap V) (v : V) :
  NoDup (map fst m) ->
  In v (Map_values m) <-> exists k, Map_get m k = Some v.
Proof.
  unfold Map_values. induction m as [|[k0 v0] m IH]; simpl; intros Hnd.
  - split; [intros []|intros [k H]; discriminate].
  - inversion Hnd as [|x xs Hnin Hnd']; subst. rewrite (IH Hnd'). split.
    + intros [<-|[k H]].
      * exists k0. rewrite String.eqb_refl. reflexivity.
      * exists k. destruct (String.eqb k0 k) eqn:E; [|exact H].
        apply String.eqb_eq in E. subst k0. exfalso. apply Hnin.
        apply Map_get_keys. eauto.
    + intros [k H]. destruct (String.eqb k0 k); [left; congruence|right; eauto].
Qed.

Lemma snapshotStep_inv (seen : list (JsMap string)) (m : JsMap SnapshotProduct)
  (r : JsMap string) :
  snapshot_inv seen m -> snapshot_inv (seen ++ [r]) (snapshotStep m r).
Proof.
  intros [Hnd [Hval [Hcov Hown]]]. unfold snapshotStep.
  set (k := keyOf (Map_get r "asin")).
  assert (Hkeep : (inherited k = false ->
                   exists p, Map_get m k = Some p
                             /\ gtStr (rowDate r) (rowDate (snap_row p)) = false) ->
                  snapshot_inv (seen ++ [r]) m).
  { intros Hr. split; [exact Hnd|]. split; [|split; [|exact Hown]].
    - intros k' p H. destruct (Hval _ _ H) as [H1 [H2 H3]].
      repeat split; auto. apply in_or_app. left. exact H3.
    - intros r' Hr' Hin. apply in_app_or in Hr' as [Hr'|[<-|[]]]; [apply Hcov; assumption|].
      apply Hr, Hin. }
  assert (Hnew : inherited k = false ->
                 (forall r', In r' seen -> keyOf (Map_get r' "asin") = k ->
                    gtStr (rowDate r') (rowDate r) = false) ->
                 snapshot_inv (seen ++ [r]) (Map_set m k (snapshotOf r))).
  { intros Hk Hold. split; [apply Map_set_NoDup, Hnd|]. split; [|split].
    - intros k' p. rewrite Map_get_set. destruct (String.eqb k k') eqn:E.
      + apply String.eqb_eq in E. subst k'. intros [= <-]. cbn [snapshotOf snap_row].
        repeat split. apply in_or_app. right. left. reflexivity.
      + intros H. destruct (Hval _ _ H) as [H1 [H2 H3]].
        repeat split; auto. apply in_or_app. left. exact H3.
    - intros r' Hr' Hin. rewrite Map_get_set.
      destruct (String.eqb k (keyOf (Map_get r' "asin"))) eqn:E.
      + apply String.eqb_eq in E. exists (snapshotOf r). split; [reflexivity|].
        cbn [snapshotOf snap_row]. apply in_app_or in Hr' as [Hr'|[<-|[]]].
        * apply Hold; [exact Hr'|symmetry; exact E].
        * apply gtStr_irrefl.
      + apply in_app_or in Hr' as [Hr'|[<-|[]]].
        * apply Hcov; assumption.
        * fold k in E. rewrite String.eqb_refl in E. discriminate.
    - intros k' Hk'. rewrite Map_set_keys in Hk'.
      destruct (Map_has m k); [apply Hown, Hk'|].
      apply in_app_or in Hk' as [Hk'|[<-|[]]]; [apply Hown, Hk'|exact Hk]. }
  destruct (Map_get m k) as [kept|] eqn:Hk.
  - assert (Hin : inherited k = false).
    { apply Hown, Map_get_keys. eauto. }
    destruct (gtStr (rowDate r) (rowDate (snap_row kept))) eqn:Hgt.
    + apply Hnew; [exact Hin|]. intros r' Hr' Hkey.
      assert (Hin' : inherited (keyOf (Map_get r' "asin")) = false) by (rewrite Hkey; exact Hin).
      destruct (Hcov r' Hr' Hin') as [p [Hp Hle]]. rewrite Hkey, Hk in Hp. injection Hp as <-.
      apply (gtStr_replaced _ _ _ Hle Hgt).
    + apply Hkeep. intros _. exists kept. auto.
  - destruct (inherited k) eqn:Hin.
    + apply Hkeep. discriminate.
    + apply Hnew; [reflexivity|]. intros r' Hr' Hkey.
      assert (Hin' : inherited (keyOf (Map_get r' "asin")) = false) by (rewrite Hkey; exact Hin).
      destruct (Hcov r' Hr' Hin') as [p [Hp _]]. rewrite Hkey, Hk in Hp. discriminate.
Qed.

Lemma latestByAsin_inv (rows : list (JsMap string)) :
  forall (seen : list (JsMap string)) (m : JsMap SnapshotProduct),
    snapshot_inv seen m -> snapshot_inv (seen ++ rows) (fold_left snapshotStep rows m).
Proof.
  induction rows as [|r rows IH]; intros seen m H; simpl.
  - rewrite app_nil_r. exact H.
  - replace (seen ++ r :: rows) with ((seen ++ [r]) ++ rows)
      by (rewrite <- app_assoc; reflexivity).
    apply IH, snapshotStep_inv, H.
Qed.

Lemma latestDate_max (products : list SnapshotProduct) :
  forall start : string,
    let result :=
      fold_left
        (fun max p =>
           match rowDate (snap_row p) with
           | Some d => if String.ltb max d then d else max
           | None => max
           end) products start in
    String.ltb result start = false
    /\ (forall p d, In p products -> rowDate (snap_row p) = Some d ->
          String.ltb result d = false)
    /\ (result = start
        \/ exists p, In p products /\ rowDate (snap_row p) = Some result).
Proof.
  induction products as [|p products IH]; intros start; cbv zeta; simpl.
  - split; [apply ltb_irrefl|]. split; [intros p d []|left; reflexivity].
  - set (next := match rowDate (snap_row p) with
                 | Some d => if String.ltb start d then d else start
                 | None => start
                 end).
    destruct (IH next) as [Hge [Hall Hor]]. cbv zeta in *.
    set (result := fold_left _ products next) in *.
    assert (Hnext : String.ltb next start = false
                    /\ (forall d, rowDate (snap_row p) = Some d -> String.ltb next d = false)
                    /\ (next = start \/ rowDate (snap_row p) = Some next)).
    { unfold next. destruct (rowDate (snap_row p)) as [d|].
      - destruct (String.ltb start d) eqn:E.
        + split; [|split; [intros d' [= <-]; apply ltb_irrefl|right; reflexivity]].
          destruct (String.ltb d start) eqn:E'; [|reflexivity].
          pose proof (ltb_trans _ _ _ E E') as Hc. rewrite ltb_irrefl in Hc. discriminate.
        + split; [apply ltb_irrefl|]. split; [intros d' [= <-]; exact E|left; reflexivity].
      - split; [apply ltb_irrefl|]. split; [discriminate|left; reflexivity]. }
    destruct Hnext as [N1 [N2 N3]].
    assert (Hup : forall x, String.ltb next x = false -> String.ltb result x = false).
    { intros x Hx. destruct (String.ltb result x) eqn:E; [|reflexivity].
      destruct (String.ltb next result) eqn:E2.
      - rewrite (ltb_trans _ _ _ E2 E) in Hx. discriminate.
      - (* result <= next and next <= result: result = next *)
        assert (result = next).
        { apply String.leb_antisym; unfold String.leb, String.ltb in *.
          - rewrite String.compare_antisym.
            destruct (String.compare next result); simpl; try reflexivity. discriminate.
          - rewrite String.compare_antisym.
            destruct (String.compare result next); simpl; try reflexivity. discriminate. }
        congruence. }
    split; [apply Hup, N1|]. split.
    + intros q d [<-|Hq] Hd; [apply Hup, N2, Hd|apply (Hall q d Hq Hd)].
    + destruct Hor as [Hr|[q [Hq Hd]]].
      * destruct N3 as [N3|N3]; [left; congruence|].
        right. exists p. split; [left; reflexivity|congruence].
      * right. exists q. split; [right; exact Hq|exact Hd].
Qed.

(** X24.  getLatestInventorySnapshot keeps one product per product id; each
    kept product is built from a row of the file, and no row with the same
    id has a later date than the kept one; rows whose id is a name that
    objects inherit from their prototype are left out, every other row's id
    has a product; the snapshot date is not earlier than the date of any
    kept product and, unless it is empty, it is the date of one of them. *)
Theorem getLatestInventorySnapshot_latest (rows : list (JsMap string)) :
  let snapshotDate := fst (getLatestInventorySnapshot rows) in
  let products := snd (getLatestInventorySnapshot rows) in
  let asinOf := fun r : JsMap string => keyOf (Map_get r "asin") in
  NoDup (map (fun p => asinOf (snap_row p)) products)
  /\ (forall p, In p products ->
        In (snap_row p) rows /\ p = snapshotOf (snap_row p)
        /\ inherited (asinOf (snap_row p)) = false)
  /\ (forall r, In r rows -> inherited (asinOf r) = false ->
        exists p, In p products
                  /\ asinOf (snap_row p) = asinOf r
                  /\ gtStr (rowDate r) (rowDate (snap_row p)) = false)
  /\ (forall p, In p products -> gtStr (rowDate (snap_row p)) (Some snapshotDate) = false)
  /\ (snapshotDate = EmptyString
      \/ exists p, In p products /\ rowDate (snap_row p) = Some snapshotDate).
Proof.
  cbv zeta. unfold getLatestInventorySnapshot. cbn [fst snd].
  assert (Hinv : snapshot_inv rows (latestByAsin rows)).
  { apply (@latestByAsin_inv rows [] []). split; [constructor|].
    split; [intros k p H; discriminate|]. split; [intros r []|intros k []]. }
  destruct Hinv as [Hnd [Hval [Hcov Hown]]].
  set (m := latestByAsin rows) in *.
  assert (Hkeys : map (fun p => keyOf (Map_get (snap_row p) "asin")) (Map_values m)
                  = map fst m).
  { unfold Map_values. rewrite map_map. apply map_ext_in. intros [k p] Hin.
    assert (Hg : Map_get m k = Some p).
    { clear - Hin Hnd. induction m as [|[k0 p0] m IH]; [destruct Hin|].
      simpl in *. inversion Hnd as [|x xs Hnin Hnd']; subst.
      destruct Hin as [[= -> ->]|Hin]; [rewrite String.eqb_refl; reflexivity|].
      destruct (String.eqb k0 k) eqn:E; [|apply IH; assumption].
      apply String.eqb_eq in E. subst k0. exfalso. apply Hnin.
      apply in_map_iff. exists (k, p). auto. }
    destruct (Hval _ _ Hg) as [-> _]. reflexivity. }
  split; [rewrite Hkeys; exact Hnd|]. split.
  { intros p Hp. apply (Map_values_get _ _ Hnd) in Hp as [k Hk].
    destruct (Hval _ _ Hk) as [H1 [H2 H3]]. repeat split; auto.
    rewrite <- H1. apply Hown, Map_get_keys. eauto. }
  split.
  { intros r Hr Hin. destruct (Hcov r Hr Hin) as [p [Hp Hle]]. exists p.
    split; [apply (Map_values_get _ _ Hnd); eauto|].
    destruct (Hval _ _ Hp) as [H1 _]. auto. }
  destruct (latestDate_max (Map_values m) EmptyString) as [_ [Hall Hor]].
  fold (latestDate (Map_values m)) in Hall, Hor.
  split.
  - intros p Hp. unfold gtStr. destruct (rowDate (snap_row p)) as [d|] eqn:Hd; [|reflexivity].
    apply (Hall p d Hp Hd).
  - exact Hor.
Qed.

Example getLatestInventorySnapshot_example :
  fst (getLatestInventorySnapshot (parseCSV inventory_csv)) = "2024-01-03"%string
  /\ map (fun p => (Map_get (snap_row p) "asin", rowDate (snap_row p), snap_quantity_on_hand p))
       (snd (getLatestInventorySnapshot (parseCSV inventory_csv)))
     = [(Some "A1", Some "2024-01-03", 3%Z); (Some "B2", Some "2024-01-02", 0%Z)]%string
  /\ snd (getLatestInventorySnapshot
            [[("asin", "valueOf"); ("date", "2024-01-01")]]%string) = [].
Proof. repeat split; reflexivity. Qed.
